(** * Prodblock browser extension: lock-state relay and overlay enforcer

    A shallow embedding of [extension/service-worker.js] (the Relay) and of
    the content script (the Enforcer), with the properties of the
    synchronisation and enforcement subsystem stated and proved about it.

    Layout:
    - [Js]: the values and built-ins of the host language the two scripts use
      (strings as UTF-16 code units, JSON values, truthiness, property reads,
      [String.prototype.trim], [endsWith], [JSON.parse]);
    - [Dom]: the document tree, [getElementById], [appendChild], [remove];
    - [Relay]: the service worker as a state machine over its three
      variables [ws], [state], [reconnectTimeout] and the browser resources
      it owns (sockets, timers, tab queries);
    - [Enforcer]: the content script ([isAllowed], [createOverlay],
      [removeOverlay], the mutation-observer callback, [handleState]);
    - the theorems. *)

From Stdlib Require Import String Ascii DecimalString ZArith NArith Bool Lia List.
Import ListNotations.

Set Implicit Arguments.

(* ===================================================================== *)
(** * Host language                                                       *)
(* ===================================================================== *)

Module Js.

(** A JavaScript string is a sequence of UTF-16 code units. *)
Definition jsstring := list N.

(** Source literals, written as Rocq strings. *)
Definition lit (s : string) : jsstring :=
  map N_of_ascii (list_ascii_of_string s).

Fixpoint str_eqb (a b : jsstring) : bool :=
  match a, b with
  | [], [] => true
  | x :: a', y :: b' => N.eqb x y && str_eqb a' b'
  | _, _ => false
  end.

(** ** Numbers

    Every number the two scripts see comes out of [JSON.parse], from an
    array or string [length], or from a tab id.  It is kept as the decimal
    [(-1)^neg * mant * 10^exp] it was written as; the engine stores the
    nearest IEEE-754 double.  The scripts never do arithmetic: they only
    test a number for truthiness and compare one with [0], and both ask
    whether the stored double is zero, i.e. whether the decimal is at most
    [2^-1075] in magnitude (half the smallest subnormal, ties to even). *)
Record JsNum := mkNum { num_neg : bool; num_mant : N; num_exp : Z }.

Definition num_of_nat (n : nat) : JsNum := mkNum false (N.of_nat n) 0.

Definition num_is_zero (x : JsNum) : bool :=
  (num_mant x =? 0)%N
  || ((num_exp x <? 0)%Z
      && (Z.of_N (num_mant x) * 2 ^ 1075 <=? 10 ^ (- num_exp x))%Z).

(** ** Values: what JSON and extension messaging can carry, and [undefined]. *)
#[warnings="-register-all"]
Inductive JsVal :=
| VUndefined
| VNull
| VBool (b : bool)
| VNum (x : JsNum)
| VStr (s : jsstring)
| VArr (xs : list JsVal)
| VObj (fields : list (jsstring * JsVal)).

(** ToBoolean. *)
Definition truthy (v : JsVal) : bool :=
  match v with
  | VUndefined | VNull => false
  | VBool b => b
  | VNum x => negb (num_is_zero x)
  | VStr s => match s with [] => false | _ => true end
  | VArr _ | VObj _ => true
  end.

(** [a || b]. *)
Definition or_else (a b : JsVal) : JsVal := if truthy a then a else b.

(** [v === 0]. *)
Definition strict_eq_zero (v : JsVal) : bool :=
  match v with VNum x => num_is_zero x | _ => false end.

(** ** Exceptions *)
Inductive Error := TypeError | SyntaxError.

Inductive Result (A : Type) :=
| Ok (a : A)
| Throw (e : Error).
Arguments Ok {A} a.
Arguments Throw {A} e.

Definition rbind {A B} (r : Result A) (k : A -> Result B) : Result B :=
  match r with Ok a => k a | Throw e => Throw e end.

(** ** Objects as ordered field lists

    The scripts only read properties by name and copy them with a spread,
    so the order in which an engine enumerates integer-like keys is left
    out. *)
Fixpoint lookup (k : jsstring) (fs : list (jsstring * JsVal)) : option JsVal :=
  match fs with
  | [] => None
  | (k', v) :: fs' => if str_eqb k k' then Some v else lookup k fs'
  end.

(** Writing a property: an existing key keeps its place, a new one goes
    last. *)
Fixpoint set_field (k : jsstring) (v : JsVal) (fs : list (jsstring * JsVal))
  : list (jsstring * JsVal) :=
  match fs with
  | [] => [(k, v)]
  | (k', v') :: fs' =>
      if str_eqb k k' then (k', v) :: fs' else (k', v') :: set_field k v fs'
  end.

(** The property key of an array index. *)
Definition key_of_nat (i : nat) : jsstring :=
  lit (NilEmpty.string_of_uint (Nat.to_uint i)).

Fixpoint index_of_key_from (k : jsstring) (i n : nat) : option nat :=
  match n with
  | O => None
  | S n' => if str_eqb k (key_of_nat i) then Some i
            else index_of_key_from k (S i) n'
  end.

(** [Some i] when [k] is the key of an index below [len]. *)
Definition index_of_key (k : jsstring) (len : nat) : option nat :=
  index_of_key_from k 0 len.

Definition from_option (o : option JsVal) : JsVal :=
  match o with Some v => v | None => VUndefined end.

(** [v.k] / [v[k]] for the own data properties of a value.  Reading a
    property of [undefined] or [null] throws.  What a value inherits from
    its prototype (methods, [constructor], [__proto__]) is not data and is
    not read here: the methods are handled where they are called, and the
    keys the scripts read ([type], [lockActive], [allowedDomains],
    [length], [id]) are not inherited names.  At a name a value inherits
    and does not own, the engine reads the inherited member where this
    function answers [undefined]; see [inherited_name]. *)
Definition get (v : JsVal) (k : jsstring) : Result JsVal :=
  match v with
  | VUndefined | VNull => Throw TypeError
  | VBool _ | VNum _ => Ok VUndefined
  | VStr s =>
      if str_eqb k (lit "length") then Ok (VNum (num_of_nat (length s)))
      else match index_of_key k (length s) with
           | Some i => Ok (VStr (firstn 1 (skipn i s)))
           | None => Ok VUndefined
           end
  | VArr xs =>
      if str_eqb k (lit "length") then Ok (VNum (num_of_nat (length xs)))
      else match index_of_key k (length xs) with
           | Some i => Ok (nth i xs VUndefined)
           | None => Ok VUndefined
           end
  | VObj fs => Ok (from_option (lookup k fs))
  end.

(** The names a plain object inherits from [Object.prototype].  On an
    object that does not own one of them the engine reads the inherited
    function or accessor, so [get] is the engine's read off these names
    only. *)
Definition object_prototype_names : list jsstring :=
  [lit "constructor"; lit "hasOwnProperty"; lit "isPrototypeOf";
   lit "propertyIsEnumerable"; lit "toLocaleString"; lit "toString";
   lit "valueOf"; lit "__proto__"; lit "__defineGetter__";
   lit "__defineSetter__"; lit "__lookupGetter__"; lit "__lookupSetter__"].

Definition inherited_name (k : jsstring) : bool :=
  existsb (str_eqb k) object_prototype_names.

(** Own enumerable properties in order, as object spread [...v] copies
    them. *)
Fixpoint indexed (i : nat) (xs : list JsVal) : list (jsstring * JsVal) :=
  match xs with
  | [] => []
  | x :: xs' => (key_of_nat i, x) :: indexed (S i) xs'
  end.

Definition own_properties (v : JsVal) : list (jsstring * JsVal) :=
  match v with
  | VObj fs => fs
  | VArr xs => indexed 0 xs
  | VStr s => indexed 0 (map (fun c => VStr [c]) s)
  | _ => []
  end.

(** [{ ...fs, ...v }]: the properties of [v] are written over [fs]. *)
Definition spread_into (fs : list (jsstring * JsVal)) (v : JsVal)
  : list (jsstring * JsVal) :=
  fold_left (fun acc kv => set_field (fst kv) (snd kv) acc) (own_properties v) fs.

(** ** String built-ins *)

(** WhiteSpace and LineTerminator code points, which [trim] strips. *)
Definition is_white_space (c : N) : bool :=
  existsb (N.eqb c)
    [9; 10; 11; 12; 13; 32; 160; 5760; 8232; 8233; 8239; 8287; 12288; 65279]%N
  || ((8192 <=? c) && (c <=? 8202))%N.

Fixpoint trim_start (s : jsstring) : jsstring :=
  match s with
  | c :: s' => if is_white_space c then trim_start s' else s
  | [] => []
  end.

Definition trim_end (s : jsstring) : jsstring := rev (trim_start (rev s)).

(** [s.trim()]. *)
Definition trim (s : jsstring) : jsstring := trim_end (trim_start s).

Fixpoint starts_with (s p : jsstring) {struct p} : bool :=
  match p, s with
  | [], _ => true
  | x :: p', y :: s' => N.eqb x y && starts_with s' p'
  | _ :: _, [] => false
  end.

(** [s.endsWith(p)]. *)
Definition ends_with (s p : jsstring) : bool := starts_with (rev s) (rev p).

(** [s.replace(/^www\./, "")]: the pattern is anchored and case-sensitive. *)
Definition strip_www (s : jsstring) : jsstring :=
  if starts_with s (lit "www.") then skipn 4 s else s.

(** [toLowerCase] on the ASCII range; the full Unicode mapping agrees with
    it on every string of ASCII code units. *)
Definition ascii_lower (c : N) : N :=
  if ((65 <=? c) && (c <=? 90))%N then (c + 32)%N else c.

Definition toLowerCase_ascii (s : jsstring) : jsstring := map ascii_lower s.

(** ** [JSON.parse]

    A recursive-descent parser of the JSON grammar over code units.  [None]
    stands for the [SyntaxError] the built-in throws. *)
Module Json.

Definition is_ws (c : N) : bool :=
  (c =? 32)%N || (c =? 9)%N || (c =? 10)%N || (c =? 13)%N.

Fixpoint skip_ws (s : jsstring) : jsstring :=
  match s with
  | c :: s' => if is_ws c then skip_ws s' else s
  | [] => []
  end.

Definition is_digit (c : N) : bool := ((48 <=? c) && (c <=? 57))%N.

(** Reads a possibly empty run of digits: their value appended to [acc],
    how many there were, and the rest. *)
Fixpoint digits (s : jsstring) (acc : N) (count : nat) : N * nat * jsstring :=
  match s with
  | c :: s' =>
      if is_digit c then digits s' (acc * 10 + (c - 48))%N (S count)
      else (acc, count, s)
  | [] => (acc, count, [])
  end.

Definition hex_value (c : N) : option N :=
  if is_digit c then Some (c - 48)%N
  else if ((97 <=? c) && (c <=? 102))%N then Some (c - 87)%N
  else if ((65 <=? c) && (c <=? 70))%N then Some (c - 55)%N
  else None.

Definition hex4 (a b c d : N) : option N :=
  match hex_value a, hex_value b, hex_value c, hex_value d with
  | Some x, Some y, Some z, Some w => Some (((x * 16 + y) * 16 + z) * 16 + w)%N
  | _, _, _, _ => None
  end.

(** The single-character escapes after a backslash. *)
Definition escape (c : N) : option N :=
  if (c =? 34)%N then Some 34%N          (* quote *)
  else if (c =? 92)%N then Some 92%N     (* backslash *)
  else if (c =? 47)%N then Some 47%N     (* slash *)
  else if (c =? 98)%N then Some 8%N      (* b: backspace *)
  else if (c =? 102)%N then Some 12%N    (* f: form feed *)
  else if (c =? 110)%N then Some 10%N    (* n: line feed *)
  else if (c =? 114)%N then Some 13%N    (* r: carriage return *)
  else if (c =? 116)%N then Some 9%N     (* t: tab *)
  else None.

(** The characters of a string literal after its opening quote, up to and
    including the closing quote. *)
Fixpoint string_chars (s : jsstring) (acc : jsstring)
  : option (jsstring * jsstring) :=
  match s with
  | [] => None
  | c :: s' =>
      if (c =? 34)%N then Some (rev acc, s')
      else if (c =? 92)%N then
        match s' with
        | e :: s'' =>
            if (e =? 117)%N then
              match s'' with
              | a :: b :: c' :: d :: s3 =>
                  match hex4 a b c' d with
                  | Some u => string_chars s3 (u :: acc)
                  | None => None
                  end
              | _ => None
              end
            else match escape e with
                 | Some u => string_chars s'' (u :: acc)
                 | None => None
                 end
        | [] => None
        end
      else if (c <? 32)%N then None
      else string_chars s' (c :: acc)
  end.

(** [-? int frac? exp?] with the minus sign already read. *)
Definition number (neg : bool) (s : jsstring) : option (JsNum * jsstring) :=
  match s with
  | c :: s' =>
      if is_digit c then
        let '(m, _, r) :=
          if (c =? 48)%N then (0%N, 1%nat, s') else digits s 0%N 0%nat in
        let frac :=
          match r with
          | d :: (f :: _) as r' =>
              if (d =? 46)%N && is_digit f
              then let '(m', k, r'') := digits r' m 0%nat in
                   Some (m', Z.of_nat k, r'')
              else if (d =? 46)%N then None else Some (m, 0%Z, r)
          | [d] => if (d =? 46)%N then None else Some (m, 0%Z, r)
          | [] => Some (m, 0%Z, r)
          end in
        match frac with
        | None => None
        | Some (m, k, r) =>
            match r with
            | e :: r1 =>
                if (e =? 101)%N || (e =? 69)%N then
                  let '(sign, r2) :=
                    match r1 with
                    | g :: r2 => if (g =? 45)%N then (true, r2)
                                 else if (g =? 43)%N then (false, r2)
                                 else (false, r1)
                    | [] => (false, r1)
                    end in
                  match r2 with
                  | h :: _ =>
                      if is_digit h then
                        let '(x, _, r3) := digits r2 0%N 0%nat in
                        let x := if sign then (- Z.of_N x)%Z else Z.of_N x in
                        Some (mkNum neg m (x - k), r3)
                      else None
                  | [] => None
                  end
                else Some (mkNum neg m (- k), r)
            | [] => Some (mkNum neg m (- k), r)
            end
        end
      else None
  | [] => None
  end.

(** One value, after optional white space; the rest of the input is
    returned.  [fuel] bounds the nesting and the number of items. *)
Fixpoint value (fuel : nat) (s : jsstring) : option (JsVal * jsstring) :=
  match fuel with
  | O => None
  | S fuel' =>
      match skip_ws s with
      | [] => None
      | c :: r =>
          if (c =? 123)%N then                              (* { *)
            match skip_ws r with
            | c' :: r' => if (c' =? 125)%N then Some (VObj [], r')
                          else members fuel' (skip_ws r) []
            | [] => None
            end
          else if (c =? 91)%N then                          (* [ *)
            match skip_ws r with
            | c' :: r' => if (c' =? 93)%N then Some (VArr [], r')
                          else elements fuel' r []
            | [] => None
            end
          else if (c =? 34)%N then                          (* a string *)
            match string_chars r [] with
            | Some (str, r') => Some (VStr str, r')
            | None => None
            end
          else if (c =? 45)%N then                          (* - *)
            match number true r with
            | Some (x, r') => Some (VNum x, r')
            | None => None
            end
          else if is_digit c then
            match number false (c :: r) with
            | Some (x, r') => Some (VNum x, r')
            | None => None
            end
          else if starts_with (c :: r) (lit "true")
          then Some (VBool true, skipn 4 (c :: r))
          else if starts_with (c :: r) (lit "false")
          then Some (VBool false, skipn 5 (c :: r))
          else if starts_with (c :: r) (lit "null")
          then Some (VNull, skipn 4 (c :: r))
          else None
      end
  end

(** The items of an array after [[] or after a comma. *)
with elements (fuel : nat) (s : jsstring) (acc : list JsVal)
  : option (JsVal * jsstring) :=
  match fuel with
  | O => None
  | S fuel' =>
      match value fuel' s with
      | Some (v, r) =>
          match skip_ws r with
          | c :: r' =>
              if (c =? 44)%N then elements fuel' r' (v :: acc)
              else if (c =? 93)%N then Some (VArr (rev (v :: acc)), r')
              else None
          | [] => None
          end
      | None => None
      end
  end

(** The members of an object, positioned at the opening quote of a key.
    A repeated key overwrites the earlier value. *)
with members (fuel : nat) (s : jsstring) (acc : list (jsstring * JsVal))
  : option (JsVal * jsstring) :=
  match fuel with
  | O => None
  | S fuel' =>
      match s with
      | q :: s' =>
          if (q =? 34)%N then
            match string_chars s' [] with
            | Some (k, r) =>
                match skip_ws r with
                | c :: r1 =>
                    if (c =? 58)%N then
                      match value fuel' r1 with
                      | Some (v, r2) =>
                          match skip_ws r2 with
                          | c' :: r3 =>
                              if (c' =? 44)%N
                              then members fuel' (skip_ws r3) (set_field k v acc)
                              else if (c' =? 125)%N
                              then Some (VObj (set_field k v acc), r3)
                              else None
                          | [] => None
                          end
                      | None => None
                      end
                    else None
                | [] => None
                end
            | None => None
            end
          else None
      | [] => None
      end
  end.

(** [JSON.parse(text)]: exactly one value, white space around it allowed. *)
Definition parse (text : jsstring) : option JsVal :=
  match value (2 * length text + 2) text with
  | Some (v, r) => match skip_ws r with [] => Some v | _ => None end
  | None => None
  end.

End Json.

End Js.

Import Js.

(* ===================================================================== *)
(** * Document tree                                                       *)
(* ===================================================================== *)

Module Dom.

(** An element: tag name, [id] attribute (empty when it has none), whether a
    shadow root is attached, and its child elements in order. *)
#[warnings="-register-all"]
Inductive Element :=
| Elem (tag id : jsstring) (shadow : bool) (children : list Element).

Definition el_id (e : Element) : jsstring :=
  match e with Elem _ i _ _ => i end.

Definition el_children (e : Element) : list Element :=
  match e with Elem _ _ _ cs => cs end.

(** The document: its root element ([document.documentElement]), or none. *)
Definition Document := option Element.

(** First element with id [k] in tree order, [e] itself included. *)
Fixpoint find_id (k : jsstring) (e : Element) : option Element :=
  match e with
  | Elem _ i _ cs =>
      if str_eqb i k then Some e
      else (fix first (l : list Element) : option Element :=
              match l with
              | [] => None
              | c :: l' => match find_id k c with
                           | Some x => Some x
                           | None => first l'
                           end
              end) cs
  end.

Fixpoint find_in (k : jsstring) (l : list Element) : option Element :=
  match l with
  | [] => None
  | c :: l' => match find_id k c with
               | Some x => Some x
               | None => find_in k l'
               end
  end.

(** How many elements of the subtree carry id [k]. *)
Fixpoint count_id (k : jsstring) (e : Element) : nat :=
  match e with
  | Elem _ i _ cs =>
      (if str_eqb i k then 1 else 0)
      + (fix sum (l : list Element) : nat :=
           match l with
           | [] => 0
           | c :: l' => count_id k c + sum l'
           end) cs
  end.

Fixpoint count_in (k : jsstring) (l : list Element) : nat :=
  match l with
  | [] => 0
  | c :: l' => count_id k c + count_in k l'
  end.

(** Detaches, with its subtree, the first proper descendant of [e] in tree
    order that carries id [k]. *)
Fixpoint remove_below (k : jsstring) (e : Element) : Element :=
  match e with
  | Elem t i sh cs =>
      Elem t i sh
        ((fix go (l : list Element) : list Element :=
            match l with
            | [] => []
            | c :: l' =>
                if str_eqb (el_id c) k then l'
                else match find_id k c with
                     | Some _ => remove_below k c :: l'
                     | None => c :: go l'
                     end
            end) cs)
  end.

Fixpoint remove_in (k : jsstring) (l : list Element) : list Element :=
  match l with
  | [] => []
  | c :: l' =>
      if str_eqb (el_id c) k then l'
      else match find_id k c with
           | Some _ => remove_below k c :: l'
           | None => c :: remove_in k l'
           end
  end.

(** [document.getElementById(k)]. *)
Definition getElementById (k : jsstring) (d : Document) : option Element :=
  match d with
  | Some root => find_id k root
  | None => None
  end.

(** [document.documentElement.appendChild(child)]: reading [appendChild] of
    a missing root throws. *)
Definition appendChild_to_root (child : Element) (d : Document)
  : Result Document :=
  match d with
  | Some (Elem t i sh cs) => Ok (Some (Elem t i sh (cs ++ [child])))
  | None => Throw TypeError
  end.

(** [x.remove()] for [x = getElementById(k)], which is known to exist. *)
Definition remove_first (k : jsstring) (d : Document) : Document :=
  match d with
  | Some root => if str_eqb (el_id root) k then None
                 else Some (remove_below k root)
  | None => None
  end.

Definition count (k : jsstring) (d : Document) : nat :=
  match d with
  | Some root => count_id k root
  | None => 0
  end.

End Dom.

(* ===================================================================== *)
(** * The Relay: [extension/service-worker.js]                            *)
(* ===================================================================== *)

Module Relay.

Definition SocketId := nat.

(** [setTimeout] returns an integer greater than zero, so a timer id is
    always truthy and [null] is the only falsy value of
    [reconnectTimeout]. *)
Definition TimerId := positive.

(** What the worker does to the outside, in program order. *)
Inductive Effect :=
| ELog (text : string)                  (* console.log *)
| EError (text : string)                (* console.error *)
| ENewSocket (url : jsstring) (s : SocketId)  (* new WebSocket(url) *)
| ESetTimeout (t : TimerId) (ms : Z)    (* setTimeout(callback, ms) *)
| EClearTimeout (t : TimerId)           (* clearTimeout(t) *)
| ETabsQuery                            (* chrome.tabs.query({}, callback) *)
| ESendMessage (tab : Z) (msg : JsVal)  (* chrome.tabs.sendMessage(tab, msg) *)
| ESendResponse (v : JsVal).            (* sendResponse(v) *)

(** The three variables of the script, and the browser resources its
    callbacks hang on. *)
Record Relay := mkRelay {
  ws : option SocketId;               (* let ws = null *)
  state : JsVal;                      (* let state = {...} *)
  reconnectTimeout : option TimerId;  (* let reconnectTimeout = null *)
  sockets : list SocketId;  (* sockets made by connect() that have not closed *)
  timers : list TimerId;    (* setTimeout callbacks neither run nor cleared *)
  queries : nat;            (* tabs.query calls whose callback has not run *)
  next_socket : SocketId;
  next_timer : TimerId;
  out : list Effect
}.

Definition set_ws v r :=
  mkRelay v (state r) (reconnectTimeout r) (sockets r) (timers r) (queries r)
          (next_socket r) (next_timer r) (out r).
Definition set_state v r :=
  mkRelay (ws r) v (reconnectTimeout r) (sockets r) (timers r) (queries r)
          (next_socket r) (next_timer r) (out r).
Definition set_reconnectTimeout v r :=
  mkRelay (ws r) (state r) v (sockets r) (timers r) (queries r)
          (next_socket r) (next_timer r) (out r).
Definition set_sockets v r :=
  mkRelay (ws r) (state r) (reconnectTimeout r) v (timers r) (queries r)
          (next_socket r) (next_timer r) (out r).
Definition set_timers v r :=
  mkRelay (ws r) (state r) (reconnectTimeout r) (sockets r) v (queries r)
          (next_socket r) (next_timer r) (out r).
Definition set_queries v r :=
  mkRelay (ws r) (state r) (reconnectTimeout r) (sockets r) (timers r) v
          (next_socket r) (next_timer r) (out r).
Definition set_next_socket v r :=
  mkRelay (ws r) (state r) (reconnectTimeout r) (sockets r) (timers r)
          (queries r) v (next_timer r) (out r).
Definition set_next_timer v r :=
  mkRelay (ws r) (state r) (reconnectTimeout r) (sockets r) (timers r)
          (queries r) (next_socket r) v (out r).
Definition emit (e : Effect) r :=
  mkRelay (ws r) (state r) (reconnectTimeout r) (sockets r) (timers r)
          (queries r) (next_socket r) (next_timer r) (out r ++ [e]).

(** [const WS_URL] *)
Definition WS_URL : jsstring := lit "ws://127.0.0.1:8766".

(** [{ lockActive: false, allowedDomains: [] }] *)
Definition default_state : JsVal :=
  VObj [(lit "lockActive", VBool false); (lit "allowedDomains", VArr [])].

(** The script's variables before its last line runs. *)
Definition boot : Relay :=
  mkRelay None default_state None [] [] 0 0%nat 1%positive [].

(** [clearTimeout(t)] *)
Definition clearTimeout (t : TimerId) (r : Relay) : Relay :=
  emit (EClearTimeout t)
       (set_timers (filter (fun t' => negb (Pos.eqb t t')) (timers r)) r).

(** [setTimeout(callback, ms)], returning the new id. *)
Definition setTimeout (ms : Z) (r : Relay) : TimerId * Relay :=
  let t := next_timer r in
  (t, emit (ESetTimeout t ms)
        (set_next_timer (Pos.succ t) (set_timers (timers r ++ [t]) r))).

(** [function scheduleReconnect()] *)
Definition scheduleReconnect (r : Relay) : Relay :=
  match reconnectTimeout r with
  | None =>
      let '(t, r1) := setTimeout 2000 r in
      set_reconnectTimeout (Some t) r1
  | Some _ => r
  end.

(** [function broadcastState()]: only starts the tab query; the messages
    go out when its callback runs. *)
Definition broadcastState (r : Relay) : Relay :=
  emit ETabsQuery (set_queries (S (queries r)) r).

(** [{ type: "STATE", ...state }] *)
Definition state_message (st : JsVal) : JsVal :=
  VObj (spread_into [(lit "type", VStr (lit "STATE"))] st).

(** A tab as [chrome.tabs.query] reports it: its [id] may be missing. *)
Record Tab := mkTab { tab_id : option Z }.

(** [if (tab.id)] *)
Definition tab_target (t : Tab) : option Z :=
  match tab_id t with
  | Some n => if (n =? 0)%Z then None else Some n
  | None => None
  end.

Fixpoint targets (tabs : list Tab) : list Z :=
  match tabs with
  | [] => []
  | t :: tabs' => match tab_target t with
                  | Some n => n :: targets tabs'
                  | None => targets tabs'
                  end
  end.

(** The callback of [chrome.tabs.query]: [state] is read when it runs.  A
    rejected [sendMessage] promise is swallowed by [.catch(() => {})]. *)
Definition tabs_callback (tabs : list Tab) (r : Relay) : Relay :=
  fold_left (fun acc n => emit (ESendMessage n (state_message (state acc))) acc)
            (targets tabs) r.

(** [ws.onopen] *)
Definition onopen (r : Relay) : Relay :=
  emit (ELog "[Prodblock] Connected to desktop app") r.

(** [ws.onmessage]; [data] is the text of the frame. *)
Definition onmessage (data : jsstring) (r : Relay) : Relay :=
  match Json.parse data with
  | Some newState => broadcastState (set_state newState r)
  | None => emit (EError "[Prodblock] Failed to parse message:") r
  end.

(** [ws.onclose] *)
Definition onclose (r : Relay) : Relay :=
  let r := emit (ELog "[Prodblock] Disconnected, will retry...") r in
  let r := set_state default_state r in
  let r := broadcastState r in
  scheduleReconnect r.

(** [ws.onerror] *)
Definition onerror (r : Relay) : Relay := r.

(** [function connect()].  [constructed] tells whether [new WebSocket]
    returned rather than threw. *)
Definition connect (constructed : bool) (r : Relay) : Relay :=
  let r :=
    match reconnectTimeout r with
    | Some t => set_reconnectTimeout None (clearTimeout t r)
    | None => r
    end in
  if constructed then
    let s := next_socket r in
    let r := emit (ENewSocket WS_URL s)
               (set_next_socket (S s) (set_sockets (sockets r ++ [s]) r)) in
    set_ws (Some s) r
  else
    let r := emit (EError "[Prodblock] WebSocket error:") r in
    scheduleReconnect r.

(** The callback [scheduleReconnect] hands to [setTimeout]. *)
Definition reconnect_callback (constructed : bool) (r : Relay) : Relay :=
  connect constructed (set_reconnectTimeout None r).

(** The [chrome.runtime.onMessage] listener. *)
Definition on_runtime_message (message : JsVal) (r : Relay) : Relay :=
  match get message (lit "type") with
  | Ok (VStr t) =>
      if str_eqb t (lit "GET_STATE") then emit (ESendResponse (state r)) r
      else r
  | _ => r
  end.

(** The worker after its script has run: the last line calls [connect()]. *)
Definition init (constructed : bool) : Relay := connect constructed boot.

(** ** The event loop *)
Inductive Event :=
| EvOpen (s : SocketId)
| EvMessage (s : SocketId) (data : jsstring)
| EvError (s : SocketId)
| EvClose (s : SocketId)
| EvTimeout (t : TimerId) (constructed : bool)
| EvTabs (tabs : list Tab)
| EvRuntimeMessage (message : JsVal).

Definition live (s : SocketId) (r : Relay) : bool :=
  existsb (Nat.eqb s) (sockets r).

Definition pending (t : TimerId) (r : Relay) : bool :=
  existsb (Pos.eqb t) (timers r).

(** One turn of the event loop; [None] when the browser cannot deliver the
    event: a socket fires events only until it has closed, a timer runs once
    and only while pending, a query calls back once. *)
Definition step (ev : Event) (r : Relay) : option Relay :=
  match ev with
  | EvOpen s => if live s r then Some (onopen r) else None
  | EvMessage s data => if live s r then Some (onmessage data r) else None
  | EvError s => if live s r then Some (onerror r) else None
  | EvClose s =>
      if live s r
      then Some (onclose
                   (set_sockets
                      (filter (fun s' => negb (Nat.eqb s s')) (sockets r)) r))
      else None
  | EvTimeout t constructed =>
      if pending t r
      then Some (reconnect_callback constructed
                   (set_timers
                      (filter (fun t' => negb (Pos.eqb t t')) (timers r)) r))
      else None
  | EvTabs tabs =>
      match queries r with
      | S n => Some (tabs_callback tabs (set_queries n r))
      | O => None
      end
  | EvRuntimeMessage message => Some (on_runtime_message message r)
  end.

Fixpoint run (evs : list Event) (r : Relay) : option Relay :=
  match evs with
  | [] => Some r
  | ev :: evs' => match step ev r with
                  | Some r' => run evs' r'
                  | None => None
                  end
  end.

Definition is_string (v : JsVal) : bool :=
  match v with VStr _ => true | _ => false end.

(** The shape of a lock state in the specification's words,
    [{lockActive: bool, allowedDomains: [string]}]; the worker has no such
    test. *)
Definition spec_LockState_shape (v : JsVal) : bool :=
  match v with
  | VObj fs =>
      match lookup (lit "lockActive") fs, lookup (lit "allowedDomains") fs with
      | Some (VBool _), Some (VArr ds) => forallb is_string ds
      | _, _ => false
      end
  | _ => false
  end.

(** ** Predicates on states and traces *)

(** A state the worker can be in: some run of the event loop from its
    start leads there. *)
Definition reachable (r : Relay) : Prop :=
  exists constructed evs, run evs (init constructed) = Some r.

(** The pending timers are exactly the one [reconnectTimeout] names. *)
Definition timers_tracked (r : Relay) : Prop :=
  timers r = match reconnectTimeout r with Some t => [t] | None => [] end.

(** Either one socket is alive or one reconnect is pending, never both. *)
Definition single_link (r : Relay) : Prop :=
  length (sockets r) + length (timers r) = 1.

Definition relay_invariant (r : Relay) : Prop :=
  timers_tracked r /\ single_link r.

(** No reconnect timer fires during [evs]. *)
Definition no_timeout (evs : list Event) : bool :=
  forallb (fun ev => match ev with EvTimeout _ _ => false | _ => true end) evs.

(** Effects of a stretch in which every message sent to a tab and every
    answer to a query is the safe default, and no socket is opened. *)
Definition default_only (efs : list Effect) : Prop :=
  Forall (fun ef => match ef with
                    | ESendMessage _ msg => msg = state_message default_state
                    | ESendResponse v => v = default_state
                    | ENewSocket _ _ => False
                    | _ => True
                    end) efs.

(** What the callback of a tab query is to send for the tabs reported:
    one [sendMessage] of [msg] for each tab whose id is a number other than
    0, in the order reported, and nothing for the others. *)
Definition one_message_per_tab (msg : JsVal) (tabs : list Tab) : list Effect :=
  flat_map (fun t => match tab_id t with
                     | Some n => if (n =? 0)%Z then [] else [ESendMessage n msg]
                     | None => []
                     end) tabs.

End Relay.

(* ===================================================================== *)
(** * The Enforcer: the content script                                    *)
(* ===================================================================== *)

Module Enforcer.

Import Dom.

(** [const OVERLAY_ID] *)
Definition OVERLAY_ID : jsstring := lit "prodblock-overlay".

(** The two variables of the script's closure and the page it runs in. *)
Record Enforcer := mkEnforcer {
  shouldBeBlocked : bool;          (* let shouldBeBlocked = false *)
  mutationObserverActive : bool;   (* let mutationObserverActive = false *)
  document : Document
}.

Definition set_shouldBeBlocked b e :=
  mkEnforcer b (mutationObserverActive e) (document e).
Definition set_mutationObserverActive b e :=
  mkEnforcer (shouldBeBlocked e) b (document e).
Definition set_document d e :=
  mkEnforcer (shouldBeBlocked e) (mutationObserverActive e) d.

(** Statements run on the script's state and may throw; what was assigned
    before a throw stays assigned. *)
Definition M (A : Type) : Type := Enforcer -> Enforcer * Result A.

Definition ret {A} (a : A) : M A := fun e => (e, Ok a).

Definition bind {A B} (c : M A) (k : A -> M B) : M B :=
  fun e => match c e with
           | (e', Ok a) => k a e'
           | (e', Throw x) => (e', Throw x)
           end.

Definition lift {A} (r : Result A) : M A := fun e => (e, r).

Definition assign (f : Enforcer -> Enforcer) : M unit :=
  fun e => (f e, Ok tt).

Declare Scope js_scope.
Delimit Scope js_scope with js.
Notation "x <- c ;; k" := (bind c (fun x => k))
  (at level 61, c at next level, right associativity) : js_scope.
Notation "c ;; k" := (bind c (fun _ => k))
  (at level 61, right associativity) : js_scope.
Local Open Scope js_scope.

(** [function getOverlay()] *)
Definition getOverlay (e : Enforcer) : option Element :=
  getElementById OVERLAY_ID (document e).

(** The [div] that [createOverlay] builds: the id, a closed shadow root
    holding the style sheet and the message, no children of its own. *)
Definition overlay_element : Element :=
  Elem (lit "div") OVERLAY_ID true [].

(** [function createOverlay()] *)
Definition createOverlay : M unit :=
  fun e =>
    match getOverlay e with
    | Some _ => (e, Ok tt)
    | None =>
        match appendChild_to_root overlay_element (document e) with
        | Ok d => (set_document d e, Ok tt)
        | Throw x => (e, Throw x)
        end
    end.

(** [function removeOverlay()] *)
Definition removeOverlay : M unit :=
  fun e =>
    match getOverlay e with
    | Some _ => (set_document (remove_first OVERLAY_ID (document e)) e, Ok tt)
    | None => (e, Ok tt)
    end.

(** The callback given to [new MutationObserver]. *)
Definition observer_callback : M unit :=
  fun e =>
    if shouldBeBlocked e && match getOverlay e with None => true | Some _ => false end
    then createOverlay e
    else (e, Ok tt).

(** The page's own scripts change the document and leave the tree [d].
    The observer watches the child lists inside the element it was
    installed on, the root of that time ([observe(document.documentElement,
    { childList: true, subtree: true })]), and nothing else: [notified]
    tells whether the change touched them.  A change of attributes or text,
    a change under a root that has since replaced the observed one, or the
    replacement itself is not notified, and nothing is when [observe]
    threw for want of a root.  The callback runs only when the observer is
    installed and notified, and then sees the document as the change left
    it. *)
Definition page_mutation (d : Document) (notified : bool) : M unit :=
  fun e =>
    let e := set_document d e in
    if mutationObserverActive e && notified then observer_callback e
    else (e, Ok tt).

(** [function setupMutationObserver()]; [observe] throws on a missing
    root. *)
Definition setupMutationObserver : M unit :=
  fun e =>
    if mutationObserverActive e then (e, Ok tt)
    else
      let e := set_mutationObserverActive true e in
      match document e with
      | Some _ => (e, Ok tt)
      | None => (e, Throw TypeError)
      end.

(** [xs.some(f)] on an array without holes. *)
Fixpoint some (f : JsVal -> Result bool) (xs : list JsVal) : Result bool :=
  match xs with
  | [] => Ok false
  | x :: xs' => rbind (f x) (fun b => if b then Ok true else some f xs')
  end.

Section Host.

(** [String.prototype.toLowerCase], the one built-in left abstract: its
    Unicode tables are the engine's. *)
Variable toLowerCase : jsstring -> jsstring.

(** The arrow function [isAllowed] passes to [some].  [trim] exists on
    strings only. *)
Definition domain_matches (host : jsstring) (d : JsVal) : Result bool :=
  match or_else d (VStr (lit "")) with
  | VStr s =>
      let domain := toLowerCase (trim s) in
      if negb (truthy (VStr domain)) then Ok false
      else Ok (str_eqb host domain || ends_with host (lit "." ++ domain))
  | _ => Throw TypeError
  end.

(** [function isAllowed(hostname, allowedDomains)]; [some] exists on arrays
    only. *)
Definition isAllowed (hostname : jsstring) (allowedDomains : JsVal)
  : Result bool :=
  if negb (truthy allowedDomains) then Ok false
  else
    rbind (get allowedDomains (lit "length")) (fun len =>
    if strict_eq_zero len then Ok false
    else
      let host := toLowerCase (strip_www hostname) in
      match allowedDomains with
      | VArr ds => some (domain_matches host) ds
      | _ => Throw TypeError
      end).

(** [function handleState(newState)]; [location_hostname] is
    [window.location.hostname]. *)
Definition handleState (location_hostname : jsstring) (newState : JsVal)
  : M unit :=
  let hostname :=
    if truthy (VStr location_hostname) then location_hostname else lit "" in
  lockActive <- lift (get newState (lit "lockActive")) ;;
  if negb (truthy lockActive) then
    assign (set_shouldBeBlocked false) ;;
    removeOverlay
  else
    allowedDomains <- lift (get newState (lit "allowedDomains")) ;;
    allowed <- lift (isAllowed hostname (or_else allowedDomains (VArr []))) ;;
    if allowed then
      assign (set_shouldBeBlocked false) ;;
      removeOverlay
    else
      assign (set_shouldBeBlocked true) ;;
      createOverlay ;;
      setupMutationObserver.

(** The [chrome.runtime.onMessage] listener of the content script. *)
Definition on_message (location_hostname : jsstring) (msg : JsVal) : M unit :=
  type <- lift (get msg (lit "type")) ;;
  match type with
  | VStr t => if str_eqb t (lit "STATE")
              then handleState location_hostname msg
              else ret tt
  | _ => ret tt
  end.

End Host.

(** The script's state when it starts in a page. *)
Definition start (d : Document) : Enforcer := mkEnforcer false false d.

(** ** Predicates on pages *)

(** Two elements are the same tree. *)
Fixpoint elem_eqb (a b : Element) : bool :=
  match a, b with
  | Elem t i sh cs, Elem t' i' sh' cs' =>
      str_eqb t t' && str_eqb i i' && Bool.eqb sh sh'
      && (fix all (l l' : list Element) : bool :=
            match l, l' with
            | [], [] => true
            | x :: l1, y :: l1' => elem_eqb x y && all l1 l1'
            | _, _ => false
            end) cs cs'
  end.

(** The tree [x] occurs in the subtree of [e]. *)
Fixpoint inside (x e : Element) : bool :=
  elem_eqb x e
  || match e with
     | Elem _ _ _ cs =>
         (fix any (l : list Element) : bool :=
            match l with
            | [] => false
            | c :: l' => inside x c || any l'
            end) cs
     end.

(** The overlay that [createOverlay] builds is in the document: the [div]
    with the id and the shadow root, not merely some element with the
    id. *)
Definition overlay_shown (d : Document) : bool :=
  match d with
  | Some root => inside overlay_element root
  | None => false
  end.

End Enforcer.

(* ===================================================================== *)
(** * The content script as a whole: start-up query and listeners         *)
(* ===================================================================== *)

Module ContentScript.

Import Dom Enforcer.

(** What the script asks of the browser, in program order. *)
Inductive Action :=
| AQuery                  (* chrome.runtime.sendMessage({ type: "GET_STATE" }, callback) *)
| ASetTimeout (ms : Z)    (* setTimeout(requestState, ms) *)
| AUncaught (e : Error).  (* an exception that leaves a callback *)

(** The Enforcer's variables and page, with the callbacks still to come. *)
Record Script := mkScript {
  enforcer : Enforcer;
  awaiting : nat;   (* GET_STATE queries whose callback has not run *)
  retries : nat;    (* setTimeout(requestState, 1000) callbacks not yet run *)
  actions : list Action
}.

(** A callback body runs to its end or to an exception nobody catches;
    assignments made before the exception stay. *)
Definition exec (c : M unit) (s : Script) : Script :=
  match c (enforcer s) with
  | (e, Ok _) => mkScript e (awaiting s) (retries s) (actions s)
  | (e, Throw x) =>
      mkScript e (awaiting s) (retries s) (actions s ++ [AUncaught x])
  end.

(** [function requestState()]: sends the query; its callback runs later. *)
Definition requestState (s : Script) : Script :=
  mkScript (enforcer s) (S (awaiting s)) (retries s) (actions s ++ [AQuery]).

Section Host.

Variable toLowerCase : jsstring -> jsstring.

(** [window.location.hostname] of the page the script runs in. *)
Variable location_hostname : jsstring.

(** The callback [requestState] gives to [sendMessage]; [lastError] tells
    whether [chrome.runtime.lastError] is set. *)
Definition response_callback (lastError : bool) (response : JsVal)
           (s : Script) : Script :=
  if lastError || negb (truthy response) then
    mkScript (enforcer s) (awaiting s) (S (retries s))
             (actions s ++ [ASetTimeout 1000])
  else exec (handleState toLowerCase location_hostname response) s.

(** What can happen to a running script. *)
Inductive Event :=
| SvResponse (lastError : bool) (response : JsVal)  (* a query is answered *)
| SvRetry                                           (* a retry timer fires *)
| SvPush (msg : JsVal)                              (* runtime.onMessage *)
| SvMutation (d : Document) (notified : bool).      (* the page changes *)

(** One turn of the page's event loop; [None] when the browser has no such
    callback to run. *)
Definition step (ev : Event) (s : Script) : option Script :=
  match ev with
  | SvResponse lastError response =>
      match awaiting s with
      | S n => Some (response_callback lastError response
                       (mkScript (enforcer s) n (retries s) (actions s)))
      | O => None
      end
  | SvRetry =>
      match retries s with
      | S n => Some (requestState
                       (mkScript (enforcer s) (awaiting s) n (actions s)))
      | O => None
      end
  | SvPush msg => Some (exec (on_message toLowerCase location_hostname msg) s)
  | SvMutation d notified => Some (exec (page_mutation d notified) s)
  end.

Fixpoint run (evs : list Event) (s : Script) : option Script :=
  match evs with
  | [] => Some s
  | ev :: evs' => match step ev s with
                  | Some s' => run evs' s'
                  | None => None
                  end
  end.

End Host.

(** The script once its body has run in a page: the listener is
    registered and the last line has called [requestState()]. *)
Definition launch (d : Document) : Script :=
  requestState (mkScript (start d) 0 0 []).

(** A query was answered with something the callback accepted. *)
Definition answered (ev : Event) : bool :=
  match ev with
  | SvResponse lastError response => negb lastError && truthy response
  | _ => false
  end.

(** An event that may hand the script a state: such an answer, or a push. *)
Definition brings_state (ev : Event) : bool :=
  match ev with
  | SvPush _ => true
  | _ => answered ev
  end.

(** The page as its own changes leave it. *)
Fixpoint page_after (evs : list Event) (d : Document) : Document :=
  match evs with
  | [] => d
  | SvMutation d' _ :: evs' => page_after evs' d'
  | _ :: evs' => page_after evs' d
  end.

End ContentScript.

(* ===================================================================== *)
(** * Vocabulary for the properties of whole runs                         *)
(* ===================================================================== *)

Module Reading.

Import Relay Enforcer.

(** An entry of [allowedDomains] that [isAllowed] can look at: a string, or
    a falsy value, which [d || ""] replaces by the empty string. *)
Definition tolerated (d : JsVal) : bool :=
  match d with
  | VStr _ => true
  | _ => negb (truthy d)
  end.

(** The text [isAllowed] trims for such an entry. *)
Definition entry_text (d : JsVal) : jsstring :=
  match d with
  | VStr s => s
  | _ => []
  end.

(** An object no key of which is written twice, as every object of the
    engine is. *)
Definition unique_keys (fs : list (jsstring * JsVal)) : Prop :=
  NoDup (map fst fs).

(** The cached state as the frames and closes of a run dictate it: the
    last frame that parsed since the last close, else what it was. *)
Definition cached_after (evs : list Relay.Event) (st : JsVal) : JsVal :=
  fold_left
    (fun st ev =>
       match ev with
       | EvMessage _ data =>
           match Json.parse data with
           | Some newState => newState
           | None => st
           end
       | EvClose _ => default_state
       | _ => st
       end)
    evs st.

Section Host.

Variable toLowerCase : jsstring -> jsstring.

(** Whether an entry, trimmed and lower-cased, is the host or a parent
    domain of it. *)
Definition entry_covers (host : jsstring) (d : JsVal) : Prop :=
  toLowerCase (trim (entry_text d)) <> []
  /\ (host = toLowerCase (trim (entry_text d))
      \/ exists pre, host = pre ++ lit "." ++ toLowerCase (trim (entry_text d))).

(** What the arrow function of [isAllowed] answers on such an entry. *)
Definition covers_b (host : jsstring) (d : JsVal) : bool :=
  match toLowerCase (trim (entry_text d)) with
  | [] => false
  | domain => str_eqb host domain || ends_with host (lit "." ++ domain)
  end.

(** The decision a state calls for on a host, apart from any page:
    [Ok true] to block, [Ok false] to unblock, or the exception reading the
    state raises. *)
Definition verdict (hostname : jsstring) (newState : JsVal) : Result bool :=
  rbind (get newState (lit "lockActive")) (fun lockActive =>
  if negb (truthy lockActive) then Ok false
  else
    rbind (get newState (lit "allowedDomains")) (fun allowedDomains =>
    rbind (isAllowed toLowerCase hostname (or_else allowedDomains (VArr [])))
          (fun allowed => Ok (negb allowed)))).

End Host.

End Reading.

(* ===================================================================== *)
(** * The activity form of the desktop front end                          *)
(* ===================================================================== *)

Module Frontend.

(** [s.split("\n")]: the pieces between line feeds; there is always at
    least one. *)
Fixpoint split_lines (s : jsstring) : list jsstring :=
  match s with
  | [] => [[]]
  | c :: s' =>
      if (c =? 10)%N then [] :: split_lines s'
      else match split_lines s' with
           | piece :: pieces => (c :: piece) :: pieces
           | [] => [[c]]
           end
  end.

(** [xs.join("\n")] on an array of strings. *)
Fixpoint join_lines (xs : list jsstring) : jsstring :=
  match xs with
  | [] => []
  | [x] => x
  | x :: xs' => x ++ [10%N] ++ join_lines xs'
  end.

(** [Boolean] as the filter of an array of strings. *)
Definition non_empty (s : jsstring) : bool := truthy (VStr s).

(** In [saveActivity]:
    [value.split("\n").map((s) => s.trim()).filter(Boolean)], what the
    form's text area of allowed domains is saved as. *)
Definition saved_lines (value : jsstring) : list jsstring :=
  filter non_empty (map trim (split_lines value)).

(** In [openActivityForm]: [(a?.allowed_domains || []).join("\n")], what
    the text area is filled with for an activity's list of strings. *)
Definition shown_lines (allowed_domains : list jsstring) : jsstring :=
  join_lines allowed_domains.

(** What the [value] getter of a text area returns for the text it holds:
    every carriage return followed by a line feed, and then every other
    carriage return, reads as one line feed. *)
Fixpoint textarea_value (raw : jsstring) : jsstring :=
  match raw with
  | [] => []
  | c :: raw' =>
      if (c =? 13)%N then
        match raw' with
        | d :: _ => if (d =? 10)%N then textarea_value raw'
                    else 10%N :: textarea_value raw'
        | [] => [10%N]
        end
      else c :: textarea_value raw'
  end.

(** A saved entry: not empty, no white space at either end, no line feed
    inside. *)
Definition clean (s : jsstring) : Prop :=
  s <> [] /\ trim s = s /\ ~ In 10%N s.

(** An entry the text area shows on one line: clean, and no carriage
    return inside either. *)
Definition one_line (s : jsstring) : Prop :=
  clean s /\ ~ In 13%N s.

End Frontend.

(* ===================================================================== *)
(** * Sample pages and states                                             *)
(* ===================================================================== *)

Module Samples.

Import Dom Enforcer.

(** A page with a head, a body and one paragraph. *)
Definition page : Document :=
  Some (Elem (lit "html") [] false
          [Elem (lit "head") [] false [];
           Elem (lit "body") [] false [Elem (lit "p") (lit "intro") false []]]).

(** The same page with the overlay appended under the root. *)
Definition blocked_page : Document :=
  Some (Elem (lit "html") [] false
          [Elem (lit "head") [] false [];
           Elem (lit "body") [] false [Elem (lit "p") (lit "intro") false []];
           overlay_element]).

(** The page after its own script has removed the overlay and put a plain
    [div] of the same id, without shadow root, into the body. *)
Definition planted_page : Document :=
  Some (Elem (lit "html") [] false
          [Elem (lit "head") [] false [];
           Elem (lit "body") [] false
             [Elem (lit "p") (lit "intro") false [];
              Elem (lit "div") OVERLAY_ID false []]]).

(** [{ type: "STATE", lockActive: true, allowedDomains: [] }] *)
Definition full_focus_message : JsVal :=
  VObj [(lit "type", VStr (lit "STATE"));
        (lit "lockActive", VBool true);
        (lit "allowedDomains", VArr [])].

(** [{ type: "STATE", lockActive: false, allowedDomains: ["example.com"] }] *)
Definition unlocked_message : JsVal :=
  VObj [(lit "type", VStr (lit "STATE"));
        (lit "lockActive", VBool false);
        (lit "allowedDomains", VArr [VStr (lit "example.com")])].

(** [{ type: "STATE", lockActive: 1 }]: no exemption list at all. *)
Definition listless_message : JsVal :=
  VObj [(lit "type", VStr (lit "STATE"));
        (lit "lockActive", VNum (num_of_nat 1))].

(** A string literal of JSON text: the characters between quotes. *)
Definition quoted (s : string) : jsstring := [34%N] ++ lit s ++ [34%N].

(** The frame [{"lockActive":true,"allowedDomains":["example.com"]}]. *)
Definition lock_frame : jsstring :=
  lit "{" ++ quoted "lockActive" ++ lit ":true,"
  ++ quoted "allowedDomains" ++ lit ":[" ++ quoted "example.com" ++ lit "]}".

(** What that frame parses to. *)
Definition lock_state : JsVal :=
  VObj [(lit "lockActive", VBool true);
        (lit "allowedDomains", VArr [VStr (lit "example.com")])].

(** The first socket closes. *)
Definition closed_once : list Relay.Event := [Relay.EvClose 0].

(** The worker right after that close. *)
Definition after_close : Relay.Relay :=
  Relay.onclose (Relay.set_sockets [] (Relay.init true)).

(** The tab query of the close reports two tabs, one without an id. *)
Definition tabs_report : list Relay.Event :=
  [Relay.EvTabs [Relay.mkTab (Some 7%Z); Relay.mkTab None]].

(** The worker after that report. *)
Definition after_report : Relay.Relay :=
  Relay.tabs_callback [Relay.mkTab (Some 7%Z); Relay.mkTab None]
    (Relay.set_queries 0 after_close).

(** The worker after the reconnect timer has then fired. *)
Definition after_reconnect : Relay.Relay :=
  Relay.reconnect_callback true (Relay.set_timers [] after_close).

(** A close whose tab query reports back only after the reconnect and a
    lock frame on the new socket. *)
Definition late_report : list Relay.Event :=
  [Relay.EvClose 0;
   Relay.EvTimeout 1%positive true;
   Relay.EvOpen 1;
   Relay.EvMessage 1 lock_frame;
   Relay.EvTabs [Relay.mkTab (Some 7%Z)]].

(** A close, the tab query reporting back, and the reconnect. *)
Definition reconnected : list Relay.Event :=
  [Relay.EvClose 0;
   Relay.EvTabs [Relay.mkTab (Some 7%Z); Relay.mkTab None];
   Relay.EvTimeout 1%positive true].

End Samples.

(** Further sample states, for the properties of whole runs. *)
Module MoreSamples.

Import Dom Enforcer.

(** [{ lockActive: true, allowedDomains: ["example.com"] }] as a message. *)
Definition lock_message : JsVal :=
  VObj [(lit "type", VStr (lit "STATE"));
        (lit "lockActive", VBool true);
        (lit "allowedDomains", VArr [VStr (lit "example.com")])].

(** The same lock with a number where a domain should be. *)
Definition bad_entry_message : JsVal :=
  VObj [(lit "lockActive", VBool true);
        (lit "allowedDomains", VArr [VNum (num_of_nat 5)])].

(** A socket opens, a lock arrives, the socket closes. *)
Definition lock_then_close : list Relay.Event :=
  [Relay.EvOpen 0; Relay.EvMessage 0 Samples.lock_frame; Relay.EvClose 0].

Definition after_lock_then_close : Relay.Relay :=
  match Relay.run lock_then_close (Relay.init true) with
  | Some r => r
  | None => Relay.boot
  end.

(** A query fails, is retried, and is answered with a lock. *)
Definition retried_once : list ContentScript.Event :=
  [ContentScript.SvResponse true VUndefined;
   ContentScript.SvRetry;
   ContentScript.SvResponse false Samples.lock_state].

(** A query fails and the page changes before any state arrives. *)
Definition still_waiting : list ContentScript.Event :=
  [ContentScript.SvResponse true VUndefined;
   ContentScript.SvMutation Samples.page true;
   ContentScript.SvRetry].

Definition script_after (evs : list ContentScript.Event)
  : ContentScript.Script :=
  match ContentScript.run toLowerCase_ascii (lit "news.example.org") evs
                          (ContentScript.launch Samples.page) with
  | Some s => s
  | None => ContentScript.launch Samples.page
  end.

End MoreSamples.

(* ===================================================================== *)
(** * Facts about the host language and the document tree                 *)
(* ===================================================================== *)

Import Dom Relay Enforcer.

Section StringFacts.

Lemma str_eqb_refl (a : jsstring) : str_eqb a a = true.
Proof.
  induction a as [|x a IH]; simpl; [reflexivity|].
  now rewrite N.eqb_refl, IH.
Qed.

Lemma str_eqb_eq (a b : jsstring) : str_eqb a b = true <-> a = b.
Proof.
  split.
  - revert b. induction a as [|x a IH]; intros [|y b]; simpl; try congruence.
    intros H. apply andb_true_iff in H as [Hx Hr].
    apply N.eqb_eq in Hx. now rewrite Hx, (IH b Hr).
  - intros ->. apply str_eqb_refl.
Qed.

Lemma str_eqb_neq (a b : jsstring) : str_eqb a b = false <-> a <> b.
Proof.
  rewrite <- str_eqb_eq. destruct (str_eqb a b); split; congruence.
Qed.

Lemma starts_with_prefix (s p : jsstring) :
  starts_with s p = true <-> exists r, s = p ++ r.
Proof.
  revert s. induction p as [|x p IH]; intros s; simpl.
  - split; [intros _; exists s; reflexivity | reflexivity].
  - destruct s as [|y s].
    + split; [congruence | intros [r Hr]; discriminate].
    + rewrite andb_true_iff, N.eqb_eq, IH. split.
      * intros [-> [r ->]]. now exists r.
      * intros [r Hr]. injection Hr as -> ->. split; [reflexivity | now exists r].
Qed.

(** [endsWith] holds exactly of the strings that are some prefix followed by
    the pattern. *)
Lemma ends_with_suffix (s p : jsstring) :
  ends_with s p = true <-> exists pre, s = pre ++ p.
Proof.
  unfold ends_with. rewrite starts_with_prefix. split.
  - intros [r Hr]. exists (rev r).
    rewrite <- (rev_involutive s), Hr, rev_app_distr, rev_involutive.
    reflexivity.
  - intros [pre ->]. exists (rev pre). apply rev_app_distr.
Qed.

End StringFacts.

Section JsonFacts.

Import Json.

Lemma skip_ws_length (s : jsstring) : length (skip_ws s) <= length s.
Proof.
  induction s as [|c s IH]; simpl; [lia|].
  destruct (is_ws c); simpl; lia.
Qed.

Lemma skip_ws_cons_length (s r : jsstring) (c : N) :
  skip_ws s = c :: r -> length r < length s.
Proof.
  intros H. pose proof (skip_ws_length s) as Hl. rewrite H in Hl. simpl in Hl. lia.
Qed.

Lemma digits_length (s : jsstring) :
  forall acc count m k r,
    digits s acc count = (m, k, r) -> length r <= length s.
Proof.
  induction s as [|c s IH]; intros acc count m k r; simpl.
  - intros [= _ _ <-]. simpl. lia.
  - destruct (is_digit c).
    + intros H. apply IH in H. lia.
    + intros [= _ _ <-]. simpl. lia.
Qed.

Lemma string_chars_length (s : jsstring) :
  forall acc k r, string_chars s acc = Some (k, r) -> length r < length s.
Proof.
  induction s as [s IH] using (well_founded_induction
                                 (Wf_nat.well_founded_ltof _ (@length N))).
  unfold Wf_nat.ltof in IH.
  intros acc k r. destruct s as [|c s]; simpl; [discriminate|].
  destruct (c =? 34)%N.
  - intros [= _ <-]. lia.
  - destruct (c =? 92)%N.
    + destruct s as [|e s]; [discriminate|].
      destruct (e =? 117)%N.
      * destruct s as [|a [|b [|c' [|d s]]]]; try discriminate.
        destruct (hex4 a b c' d); [|discriminate].
        intros H. apply IH in H; simpl in *; lia.
      * destruct (escape e); [|discriminate].
        intros H. apply IH in H; simpl in *; lia.
    + destruct (c <? 32)%N; [discriminate|].
      intros H. apply IH in H; simpl in *; lia.
Qed.

Lemma number_length (neg : bool) (s : jsstring) (x : JsNum) (r : jsstring) :
  number neg s = Some (x, r) -> length r < length s.
Proof.
  unfold number. destruct s as [|c s']; [discriminate|].
  destruct (is_digit c) eqn:Hc; [|discriminate].
  destruct (if (c =? 48)%N then (0%N, 1, s') else digits (c :: s') 0%N 0)
    as [[m k0] r0] eqn:Hint.
  assert (H0 : length r0 <= length s').
  { destruct (c =? 48)%N.
    - injection Hint as _ _ <-. lia.
    - simpl in Hint. rewrite Hc in Hint. apply digits_length in Hint. exact Hint. }
  match goal with
  | |- match ?F with _ => _ end = _ -> _ =>
      destruct F as [[[m1 k1] r1]|] eqn:Hfrac; [|discriminate]
  end.
  assert (H1 : length r1 <= length r0).
  { destruct r0 as [|d [|f t]].
    - injection Hfrac as _ _ <-. lia.
    - destruct (d =? 46)%N; [discriminate|]. injection Hfrac as _ _ <-. lia.
    - destruct ((d =? 46)%N && is_digit f).
      + destruct (digits (f :: t) m 0) as [[m' k'] r''] eqn:Hd.
        injection Hfrac as _ _ <-. apply digits_length in Hd. simpl in *. lia.
      + destruct (d =? 46)%N; [discriminate|]. injection Hfrac as _ _ <-. lia. }
  destruct r1 as [|e r1'].
  - intros [= _ <-]. simpl in *. lia.
  - destruct ((e =? 101)%N || (e =? 69)%N).
    + match goal with
      | |- (let '(_, _) := ?F in _) = _ -> _ =>
          destruct F as [sign r2] eqn:Hsign
      end.
      assert (H2 : length r2 <= length r1').
      { destruct r1' as [|g t].
        - injection Hsign as _ <-. lia.
        - destruct (g =? 45)%N; [injection Hsign as _ <-; simpl; lia|].
          destruct (g =? 43)%N; injection Hsign as _ <-; simpl; lia. }
      destruct r2 as [|h t]; [discriminate|].
      destruct (is_digit h); [|discriminate].
      destruct (digits (h :: t) 0%N 0) as [[x' k'] r3] eqn:Hd.
      intros [= _ <-]. apply digits_length in Hd. simpl in *. lia.
    + intros [= _ <-]. simpl in *. lia.
Qed.

Local Arguments starts_with : simpl never.
Local Arguments lit : simpl never.
Local Arguments skipn : simpl never.
Local Arguments string_chars : simpl never.
Local Arguments number : simpl never.
Local Arguments skip_ws : simpl never.
Local Arguments set_field : simpl never.

Lemma value_length (fuel : nat) :
  (forall s v r, value fuel s = Some (v, r) -> length r < length s)
  /\ (forall s acc v r, elements fuel s acc = Some (v, r) -> length r < length s)
  /\ (forall s acc v r, members fuel s acc = Some (v, r) -> length r < length s).
Proof.
  induction fuel as [|f (IHv & IHe & IHm)];
    [repeat split; intros; discriminate|].
  repeat split.
  - intros s v r. simpl.
    destruct (skip_ws s) as [|c r0] eqn:Hs; [discriminate|].
    apply skip_ws_cons_length in Hs.
    destruct (c =? 123)%N.
    { destruct (skip_ws r0) as [|c' r'] eqn:Hr0; [discriminate|].
      apply skip_ws_cons_length in Hr0 as Hlt.
      destruct (c' =? 125)%N.
      - intros [= _ <-]. lia.
      - intros H. apply IHm in H. simpl in H. lia. }
    destruct (c =? 91)%N.
    { destruct (skip_ws r0) as [|c' r'] eqn:Hr0; [discriminate|].
      apply skip_ws_cons_length in Hr0.
      destruct (c' =? 93)%N.
      - intros [= _ <-]. lia.
      - intros H. apply IHe in H. lia. }
    destruct (c =? 34)%N.
    { destruct (string_chars r0 []) as [[str r']|] eqn:Hstr; [|discriminate].
      apply string_chars_length in Hstr. intros [= _ <-]. lia. }
    destruct (c =? 45)%N.
    { destruct (number true r0) as [[x r']|] eqn:Hn; [|discriminate].
      apply number_length in Hn. intros [= _ <-]. lia. }
    destruct (is_digit c).
    { destruct (number false (c :: r0)) as [[x r']|] eqn:Hn; [|discriminate].
      apply number_length in Hn. simpl in Hn. intros [= _ <-]. lia. }
    destruct (starts_with (c :: r0) (lit "true"));
      [intros [= _ <-]; rewrite length_skipn; simpl; lia|].
    destruct (starts_with (c :: r0) (lit "false"));
      [intros [= _ <-]; rewrite length_skipn; simpl; lia|].
    destruct (starts_with (c :: r0) (lit "null"));
      [intros [= _ <-]; rewrite length_skipn; simpl; lia|].
    discriminate.
  - intros s acc v r. simpl.
    destruct (value f s) as [[v0 r0]|] eqn:Hv; [|discriminate].
    apply IHv in Hv.
    destruct (skip_ws r0) as [|c r1] eqn:Hr0; [discriminate|].
    apply skip_ws_cons_length in Hr0.
    destruct (c =? 44)%N.
    + intros H. apply IHe in H. lia.
    + destruct (c =? 93)%N; [|discriminate]. intros [= _ <-]. lia.
  - intros s acc v r. simpl.
    destruct s as [|q s']; [discriminate|].
    destruct (q =? 34)%N; [|discriminate].
    destruct (string_chars s' []) as [[k r0]|] eqn:Hk; [|discriminate].
    apply string_chars_length in Hk.
    destruct (skip_ws r0) as [|c r1] eqn:Hr0; [discriminate|].
    apply skip_ws_cons_length in Hr0.
    destruct (c =? 58)%N; [|discriminate].
    destruct (value f r1) as [[v0 r2]|] eqn:Hv; [|discriminate].
    apply IHv in Hv.
    destruct (skip_ws r2) as [|c' r3] eqn:Hr2; [discriminate|].
    apply skip_ws_cons_length in Hr2.
    destruct (c' =? 44)%N.
    + intros H. apply IHm in H. pose proof (skip_ws_length r3). simpl. lia.
    + destruct (c' =? 125)%N; [|discriminate]. intros [= _ <-]. simpl. lia.
Qed.

(** Fuel beyond twice the length of the input changes nothing: the parser
    never stops for lack of it. *)
Lemma fuel_stable (fuel : nat) :
  (forall s, 2 * length s + 1 <= fuel -> value (S fuel) s = value fuel s)
  /\ (forall s acc, 2 * length s + 2 <= fuel ->
                    elements (S fuel) s acc = elements fuel s acc)
  /\ (forall s acc, 2 * length s <= fuel ->
                    members (S fuel) s acc = members fuel s acc).
Proof.
  induction fuel as [|f (IHv & IHe & IHm)].
  - repeat split; try (intros; lia).
    intros [|c s] acc H; [reflexivity | simpl in H; lia].
  - destruct (value_length f) as (Lv & _ & _).
    repeat split.
    + intros s Hf. cbn [value].
      destruct (skip_ws s) as [|c r0] eqn:Hs; [reflexivity|].
      apply skip_ws_cons_length in Hs.
      destruct (c =? 123)%N.
      { destruct (skip_ws r0) as [|c' r'] eqn:Hr0; [reflexivity|].
        destruct (c' =? 125)%N; [reflexivity|].
        apply IHm. rewrite <- Hr0. pose proof (skip_ws_length r0). lia. }
      destruct (c =? 91)%N; [|reflexivity].
      destruct (skip_ws r0) as [|c' r'] eqn:Hr0; [reflexivity|].
      destruct (c' =? 93)%N; [reflexivity|].
      apply IHe. lia.
    + intros s acc Hf. cbn [elements].
      rewrite (IHv s) by lia.
      destruct (value f s) as [[v0 r0]|] eqn:Hv; [|reflexivity].
      apply Lv in Hv.
      destruct (skip_ws r0) as [|c r1] eqn:Hr0; [reflexivity|].
      apply skip_ws_cons_length in Hr0.
      destruct (c =? 44)%N; [|reflexivity].
      apply IHe. lia.
    + intros s acc Hf. cbn [members].
      destruct s as [|q s']; [reflexivity|].
      destruct (q =? 34)%N; [|reflexivity].
      destruct (string_chars s' []) as [[k r0]|] eqn:Hk; [|reflexivity].
      apply string_chars_length in Hk.
      destruct (skip_ws r0) as [|c r1] eqn:Hr0; [reflexivity|].
      apply skip_ws_cons_length in Hr0.
      destruct (c =? 58)%N; [|reflexivity].
      simpl in Hf.
      rewrite (IHv r1) by lia.
      destruct (value f r1) as [[v0 r2]|] eqn:Hv; [|reflexivity].
      apply Lv in Hv.
      destruct (skip_ws r2) as [|c' r3] eqn:Hr2; [reflexivity|].
      apply skip_ws_cons_length in Hr2.
      destruct (c' =? 44)%N; [|reflexivity].
      apply IHm. pose proof (skip_ws_length r3). lia.
Qed.

(** [JSON.parse] gives the same answer with any larger amount of fuel: a
    [None] is a syntax error, never exhaustion. *)
Lemma parse_fuel_irrelevant (text : jsstring) (extra : nat) :
  value (2 * length text + 2 + extra) text = value (2 * length text + 2) text.
Proof.
  induction extra as [|n IH]; [now rewrite Nat.add_0_r|].
  rewrite Nat.add_succ_r, <- IH.
  apply (proj1 (fuel_stable _)). lia.
Qed.

End JsonFacts.

Section TreeFacts.

Variable k : jsstring.

Lemma find_id_unfold t i sh cs :
  find_id k (Elem t i sh cs)
  = if str_eqb i k then Some (Elem t i sh cs) else find_in k cs.
Proof.
  simpl. destruct (str_eqb i k); [reflexivity|].
  induction cs as [|c l IH]; simpl; [reflexivity|].
  destruct (find_id k c); [reflexivity | exact IH].
Qed.

Lemma count_id_unfold t i sh cs :
  count_id k (Elem t i sh cs)
  = (if str_eqb i k then 1 else 0) + count_in k cs.
Proof.
  simpl. f_equal. induction cs as [|c l IH]; simpl; [reflexivity|].
  now rewrite IH.
Qed.

Lemma remove_below_unfold t i sh cs :
  remove_below k (Elem t i sh cs) = Elem t i sh (remove_in k cs).
Proof.
  simpl. f_equal. induction cs as [|c l IH]; simpl; [reflexivity|].
  destruct (str_eqb (el_id c) k); [reflexivity|].
  destruct (find_id k c); [reflexivity | now rewrite IH].
Qed.

(** Induction on a tree with the hypothesis available for every child. *)
Lemma Element_forall_ind (P : Element -> Prop) :
  (forall t i sh cs, Forall P cs -> P (Elem t i sh cs)) ->
  forall e, P e.
Proof.
  intros H. fix self 1. intros [t i sh cs]. apply H.
  induction cs as [|c l IH]; constructor; [apply self | exact IH].
Qed.

Lemma find_in_none_count (cs : list Element) :
  Forall (fun e => find_id k e = None <-> count_id k e = 0) cs ->
  (find_in k cs = None <-> count_in k cs = 0).
Proof.
  induction 1 as [|c l Hc _ IH]; simpl; [tauto|].
  destruct (find_id k c) eqn:E.
  - split; [discriminate|]. intros H0.
    assert (count_id k c = 0) by lia. apply Hc in H. discriminate.
  - assert (count_id k c = 0) as -> by now apply Hc.
    simpl. exact IH.
Qed.

(** [getElementById] misses exactly when no element carries the id. *)
Lemma find_id_none_count (e : Element) :
  find_id k e = None <-> count_id k e = 0.
Proof.
  induction e as [t i sh cs IH] using Element_forall_ind.
  rewrite find_id_unfold, count_id_unfold.
  destruct (str_eqb i k).
  - split; [discriminate | simpl; discriminate].
  - simpl. now apply find_in_none_count.
Qed.

Lemma find_in_none_count' (cs : list Element) :
  find_in k cs = None <-> count_in k cs = 0.
Proof.
  apply find_in_none_count. apply Forall_forall.
  intros e _. apply find_id_none_count.
Qed.

Lemma find_in_app (cs l : list Element) :
  find_in k (cs ++ l)
  = match find_in k cs with Some x => Some x | None => find_in k l end.
Proof.
  induction cs as [|c cs IH]; simpl; [reflexivity|].
  destruct (find_id k c); [reflexivity | exact IH].
Qed.

Lemma count_in_app (cs l : list Element) :
  count_in k (cs ++ l) = count_in k cs + count_in k l.
Proof.
  induction cs as [|c cs IH]; simpl; [reflexivity | lia].
Qed.

Lemma count_id_own (e : Element) :
  str_eqb (el_id e) k = true -> 1 <= count_id k e.
Proof.
  destruct e as [t i sh cs]. simpl el_id. intros H.
  rewrite count_id_unfold, H. lia.
Qed.

Lemma remove_in_count (cs : list Element) :
  Forall (fun e => str_eqb (el_id e) k = false -> find_id k e <> None ->
                   count_id k (remove_below k e) < count_id k e) cs ->
  find_in k cs <> None ->
  count_in k (remove_in k cs) < count_in k cs.
Proof.
  induction 1 as [|c l Hc _ IH]; simpl; [congruence|].
  destruct (str_eqb (el_id c) k) eqn:Eid.
  - intros _. pose proof (count_id_own c Eid). lia.
  - destruct (find_id k c) eqn:E.
    + intros _. simpl.
      assert (count_id k (remove_below k c) < count_id k c)
        by (apply Hc; [reflexivity | discriminate]).
      lia.
    + intros Hl. simpl. specialize (IH Hl). lia.
Qed.

Lemma remove_in_none (cs : list Element) :
  find_in k cs = None -> remove_in k cs = cs.
Proof.
  induction cs as [|c l IH]; simpl; [reflexivity|].
  destruct (find_id k c) eqn:Ec; [discriminate|].
  intros Hl. destruct c as [t i sh cs'].
  rewrite find_id_unfold in Ec. simpl el_id.
  destruct (str_eqb i k); [discriminate|].
  now rewrite IH.
Qed.

(** Removing the first element with the id takes at least that one away. *)
Lemma remove_below_count (e : Element) :
  str_eqb (el_id e) k = false -> find_id k e <> None ->
  count_id k (remove_below k e) < count_id k e.
Proof.
  induction e as [t i sh cs IH] using Element_forall_ind.
  simpl el_id. intros Hi.
  rewrite find_id_unfold, remove_below_unfold, !count_id_unfold, Hi.
  intros Hf. simpl. now apply remove_in_count.
Qed.

End TreeFacts.

Arguments find_id : simpl never.
Arguments count_id : simpl never.
Arguments remove_below : simpl never.

Section DocumentFacts.

Variable k : jsstring.

Lemma getElementById_none_count (d : Document) :
  getElementById k d = None <-> count k d = 0.
Proof.
  destruct d as [root|]; simpl; [apply find_id_none_count | tauto].
Qed.

Lemma getElementById_some_count (d : Document) :
  getElementById k d <> None <-> 1 <= count k d.
Proof.
  rewrite getElementById_none_count. lia.
Qed.

(** Appending under the root of a document that has no element with the
    id: the search then finds whatever it finds in the new child. *)
Lemma appendChild_find (c : Element) (d : Document) :
  d <> None -> getElementById k d = None ->
  exists d', appendChild_to_root c d = Ok d'
             /\ d' <> None
             /\ getElementById k d' = find_id k c
             /\ count k d' = count_id k c.
Proof.
  destruct d as [[t i sh cs]|]; [intros _ | congruence].
  intros Hnone. pose proof Hnone as H0.
  apply getElementById_none_count in H0.
  simpl in Hnone, H0. rewrite find_id_unfold in Hnone.
  rewrite count_id_unfold in H0.
  eexists. split; [reflexivity|]. split; [discriminate|].
  simpl. rewrite find_id_unfold, count_id_unfold, find_in_app, count_in_app.
  destruct (str_eqb i k); [discriminate|].
  rewrite Hnone. simpl.
  split; [destruct (find_id k c); reflexivity | lia].
Qed.

Lemma remove_first_count (d : Document) :
  getElementById k d <> None -> count k (remove_first k d) < count k d.
Proof.
  destruct d as [root|]; simpl; [|congruence].
  intros Hf. destruct (str_eqb (el_id root) k) eqn:E; simpl.
  - pose proof (count_id_own k root E). lia.
  - now apply remove_below_count.
Qed.

(** In a document whose ids are unique, removing the element found leaves
    none with that id. *)
Lemma remove_first_unique (d : Document) :
  count k d <= 1 -> getElementById k (remove_first k d) = None.
Proof.
  intros Hle. apply getElementById_none_count.
  destruct (getElementById k d) eqn:E; [|pose proof E as Hle'].
  - assert (count k (remove_first k d) < count k d)
      by (apply remove_first_count; congruence).
    lia.
  - destruct d as [[t i sh cs]|]; [|reflexivity].
    unfold getElementById in E. rewrite find_id_unfold in E.
    unfold remove_first. simpl el_id.
    destruct (str_eqb i k); [discriminate|].
    rewrite remove_below_unfold, (remove_in_none k cs E).
    now apply getElementById_none_count in Hle'.
Qed.

End DocumentFacts.

(* ===================================================================== *)
(** * Facts about the Enforcer's operations                               *)
(* ===================================================================== *)

Section OverlayFacts.

Lemma overlay_element_found : find_id OVERLAY_ID overlay_element = Some overlay_element.
Proof. reflexivity. Qed.

Lemma overlay_element_count : count_id OVERLAY_ID overlay_element = 1.
Proof. reflexivity. Qed.

(** With the overlay already there, [createOverlay] returns at once. *)
Lemma createOverlay_present (e : Enforcer) :
  getOverlay e <> None -> createOverlay e = (e, Ok tt).
Proof.
  unfold createOverlay. destruct (getOverlay e); [reflexivity | congruence].
Qed.

(** Without a root element there is nothing to append to. *)
Lemma createOverlay_rootless (e : Enforcer) :
  document e = None -> createOverlay e = (e, Throw TypeError).
Proof.
  unfold createOverlay, getOverlay. intros ->. reflexivity.
Qed.

(** With a root and no overlay, [createOverlay] appends one. *)
Lemma createOverlay_absent (e : Enforcer) :
  document e <> None -> getOverlay e = None ->
  exists d, createOverlay e = (set_document d e, Ok tt)
            /\ appendChild_to_root overlay_element (document e) = Ok d
            /\ d <> None
            /\ getElementById OVERLAY_ID d = Some overlay_element
            /\ count OVERLAY_ID d = 1.
Proof.
  intros Hroot Hnone. unfold createOverlay. rewrite Hnone.
  destruct (appendChild_find OVERLAY_ID overlay_element Hroot Hnone)
    as (d & Happ & Hd & Hfind & Hcount).
  exists d. rewrite Happ. repeat split; assumption.
Qed.

(** Whatever the page holds, after [createOverlay] on a document with a
    root an element with the overlay's id is present. *)
Lemma createOverlay_ensures (e : Enforcer) :
  document e <> None ->
  exists e', createOverlay e = (e', Ok tt)
             /\ getOverlay e' <> None
             /\ document e' <> None
             /\ shouldBeBlocked e' = shouldBeBlocked e
             /\ mutationObserverActive e' = mutationObserverActive e.
Proof.
  intros Hroot. destruct (getOverlay e) eqn:E.
  - exists e. rewrite createOverlay_present by congruence.
    repeat split; congruence.
  - destruct (createOverlay_absent e Hroot E) as (d & -> & _ & Hd & Hf & _).
    exists (set_document d e). unfold getOverlay. simpl.
    repeat split; congruence.
Qed.

(** The element [createOverlay] appends is then in the document. *)
Lemma appended_overlay_shown (d d' : Document) :
  appendChild_to_root overlay_element d = Ok d' -> overlay_shown d' = true.
Proof.
  destruct d as [[t i sh cs]|]; simpl; [|discriminate].
  intros [= <-]. unfold overlay_shown. cbn [inside].
  apply orb_true_iff. right.
  induction cs as [|c cs IH]; simpl; [reflexivity|].
  rewrite IH. apply orb_true_r.
Qed.

End OverlayFacts.

Section HandleStateFacts.

Variable toLowerCase : jsstring -> jsstring.

Lemma get_length_of_array (xs : list JsVal) :
  get (VArr xs) (lit "length") = Ok (VNum (num_of_nat (length xs))).
Proof. reflexivity. Qed.

Lemma length_nonzero (n : nat) :
  strict_eq_zero (VNum (num_of_nat (S n))) = false.
Proof.
  unfold strict_eq_zero, num_is_zero, num_of_nat. cbn [num_mant num_exp].
  rewrite Z.ltb_irrefl, andb_false_l, orb_false_r.
  apply N.eqb_neq. lia.
Qed.

(** On the empty list [isAllowed] answers before looking at the host. *)
Lemma isAllowed_empty (hostname : jsstring) :
  isAllowed toLowerCase hostname (VArr []) = Ok false.
Proof. reflexivity. Qed.

(** [window.location.hostname || ""] is the host name itself. *)
Lemma hostname_or_empty (h : jsstring) :
  (if truthy (VStr h) then h else lit "") = h.
Proof. destruct h; reflexivity. Qed.

(** The branch of [handleState] taken when the lock is off. *)
Lemma handleState_unlocked hostname newState lockActive (e : Enforcer) :
  get newState (lit "lockActive") = Ok lockActive ->
  truthy lockActive = false ->
  handleState toLowerCase hostname newState e
  = removeOverlay (set_shouldBeBlocked false e).
Proof.
  intros Hget Hfalsy. unfold handleState, bind, lift, assign.
  rewrite Hget, Hfalsy. reflexivity.
Qed.

(** The branch taken when the lock is on and the host is not exempt. *)
Lemma handleState_blocked hostname newState lockActive allowedDomains
      (e : Enforcer) :
  get newState (lit "lockActive") = Ok lockActive ->
  truthy lockActive = true ->
  get newState (lit "allowedDomains") = Ok allowedDomains ->
  isAllowed toLowerCase hostname (or_else allowedDomains (VArr [])) = Ok false ->
  handleState toLowerCase hostname newState e
  = bind createOverlay (fun _ => setupMutationObserver)
         (set_shouldBeBlocked true e).
Proof.
  intros Hla Htruthy Had Hallowed. unfold handleState, bind, lift, assign.
  rewrite Hla, Htruthy, Had, hostname_or_empty, Hallowed. reflexivity.
Qed.

(** What that branch leaves behind: the target is Blocked in any case, and
    on a document with a root the overlay is present and the observer
    installed. *)
Lemma blocked_branch_outcome (e : Enforcer) :
  shouldBeBlocked
    (fst (bind createOverlay (fun _ => setupMutationObserver)
               (set_shouldBeBlocked true e))) = true
  /\ (document e <> None ->
      exists e',
        bind createOverlay (fun _ => setupMutationObserver)
             (set_shouldBeBlocked true e) = (e', Ok tt)
        /\ shouldBeBlocked e' = true
        /\ getOverlay e' <> None
        /\ mutationObserverActive e' = true).
Proof.
  split.
  - unfold bind. destruct (document e) eqn:Hd.
    + destruct (createOverlay_ensures (set_shouldBeBlocked true e))
        as (e1 & -> & _ & _ & Hb & _); [simpl; congruence|].
      unfold setupMutationObserver.
      destruct (mutationObserverActive e1); [exact Hb|].
      destruct (Enforcer.document (set_mutationObserverActive true e1));
        exact Hb.
    + rewrite createOverlay_rootless by exact Hd. reflexivity.
  - intros Hroot. unfold bind.
    destruct (createOverlay_ensures (set_shouldBeBlocked true e))
      as (e1 & -> & Hov & Hdoc & Hb & _); [exact Hroot|].
    unfold setupMutationObserver.
    destruct (mutationObserverActive e1) eqn:Hact.
    + exists e1. repeat split; assumption.
    + exists (set_mutationObserverActive true e1).
      simpl. destruct (Enforcer.document e1); [|congruence].
      repeat split; assumption.
Qed.

(** The same branch case by case: what it does to the document depends on
    whether an element with the overlay's id is already there, and on
    whether there is a root to append to. *)
Lemma blocked_branch_cases (e : Enforcer) :
  (getOverlay e = None -> document e <> None ->
   exists d,
     appendChild_to_root overlay_element (document e) = Ok d
     /\ bind createOverlay (fun _ => setupMutationObserver)
             (set_shouldBeBlocked true e) = (mkEnforcer true true d, Ok tt)
     /\ getElementById OVERLAY_ID d = Some overlay_element
     /\ count OVERLAY_ID d = 1
     /\ overlay_shown d = true)
  /\ (getOverlay e <> None ->
      bind createOverlay (fun _ => setupMutationObserver)
           (set_shouldBeBlocked true e)
      = (mkEnforcer true true (document e), Ok tt))
  /\ (document e = None ->
      bind createOverlay (fun _ => setupMutationObserver)
           (set_shouldBeBlocked true e)
      = (mkEnforcer true (mutationObserverActive e) None, Throw TypeError)).
Proof.
  split; [|split].
  - intros Hnone Hroot.
    destruct (createOverlay_absent (set_shouldBeBlocked true e) Hroot Hnone)
      as (d & Hrun & Happ & Hd & Hfind & Hcount).
    exists d. split; [exact Happ|]. split.
    + unfold bind. rewrite Hrun.
      unfold setupMutationObserver, set_mutationObserverActive,
        set_document, set_shouldBeBlocked.
      cbn [mutationObserverActive shouldBeBlocked Enforcer.document].
      destruct (mutationObserverActive e); [reflexivity|].
      destruct d; [reflexivity | congruence].
    + split; [exact Hfind|]. split; [exact Hcount|].
      exact (appended_overlay_shown _ Happ).
  - intros Hsome. unfold bind.
    rewrite createOverlay_present by exact Hsome.
    unfold setupMutationObserver, set_mutationObserverActive,
      set_shouldBeBlocked.
    cbn [mutationObserverActive shouldBeBlocked Enforcer.document].
    destruct (mutationObserverActive e); [reflexivity|].
    destruct (document e) eqn:Hd; [reflexivity|].
    exfalso. apply Hsome. unfold getOverlay. now rewrite Hd.
  - intros Hd. unfold bind.
    rewrite createOverlay_rootless by exact Hd.
    unfold set_shouldBeBlocked. now rewrite Hd.
Qed.

(** What the unlocked branch leaves behind. *)
Lemma unblocked_branch_outcome (e : Enforcer) :
  exists e',
    removeOverlay (set_shouldBeBlocked false e) = (e', Ok tt)
    /\ shouldBeBlocked e' = false
    /\ mutationObserverActive e' = mutationObserverActive e
    /\ document e'
       = match getOverlay e with
         | Some _ => remove_first OVERLAY_ID (document e)
         | None => document e
         end
    /\ (count OVERLAY_ID (document e) <= 1 -> getOverlay e' = None).
Proof.
  unfold removeOverlay.
  change (getOverlay (set_shouldBeBlocked false e)) with (getOverlay e).
  destruct (getOverlay e) eqn:E; eexists; (split; [reflexivity|]);
    simpl; repeat split.
  - intros Hle. now apply remove_first_unique.
  - intros _. exact E.
Qed.

End HandleStateFacts.

(* ===================================================================== *)
(** * Properties of the Enforcer                                          *)
(* ===================================================================== *)

Section EnforcerProperties.

Variable toLowerCase : jsstring -> jsstring.

Lemma or_empty_string (d : jsstring) :
  or_else (VStr d) (VStr (lit "")) = VStr d.
Proof. destruct d; reflexivity. Qed.

(** [isAllowed] on a one-entry list of strings, evaluated. *)
Lemma isAllowed_single_eval (h d : jsstring) :
  isAllowed toLowerCase h (VArr [VStr d])
  = Ok (match toLowerCase (trim d) with
        | [] => false
        | domain =>
            str_eqb (toLowerCase (strip_www h)) domain
            || ends_with (toLowerCase (strip_www h)) (lit "." ++ domain)
        end).
Proof.
  unfold isAllowed. cbn [truthy negb].
  rewrite get_length_of_array. cbn [length rbind].
  rewrite length_nonzero. cbn [some rbind].
  unfold domain_matches. rewrite or_empty_string.
  destruct (toLowerCase (trim d)) as [|c r]; cbn [truthy negb rbind].
  - reflexivity.
  - destruct (str_eqb _ _ || ends_with _ _); reflexivity.
Qed.

(** C1 (as amended): for every host name [h] and every one-entry list
    [[d]] whose entry is not empty once trimmed and lower-cased,
    [isAllowed(h, [d])] is true exactly when [h], with a leading [www.]
    stripped and then lower-cased, equals that entry or ends with a dot
    followed by it; an entry that is empty once trimmed and lower-cased is
    skipped, so the answer is false. *)
Theorem isAllowed_single_domain (h d : jsstring) :
  (toLowerCase (trim d) <> [] ->
   (isAllowed toLowerCase h (VArr [VStr d]) = Ok true
    <-> toLowerCase (strip_www h) = toLowerCase (trim d)
        \/ exists pre,
             toLowerCase (strip_www h)
             = pre ++ lit "." ++ toLowerCase (trim d)))
  /\ (toLowerCase (trim d) = [] ->
      isAllowed toLowerCase h (VArr [VStr d]) = Ok false).
Proof.
  rewrite isAllowed_single_eval. split.
  - intros Hne. rewrite <- str_eqb_eq, <- ends_with_suffix.
    destruct (toLowerCase (trim d)) as [|c r] eqn:E; [congruence|].
    rewrite <- orb_true_iff. split; congruence.
  - intros ->. reflexivity.
Qed.

(** C5 (as amended): a state with [lockActive = true] and
    [allowedDomains = []] makes the Enforcer target Blocked on every host
    name: [isAllowed] answers false on the empty list and [shouldBeBlocked]
    becomes true.  What then happens to the document depends on the page:
    with a root element and no element of the overlay's id, the overlay is
    appended under the root and the observer installed; with an element of
    that id already there, the overlay or any other, the document is left
    as it is; without a root element the call throws and nothing is
    added. *)
Theorem full_focus_blocks_every_host (hostname : jsstring) (newState : JsVal)
        (e : Enforcer) :
  get newState (lit "lockActive") = Ok (VBool true) ->
  get newState (lit "allowedDomains") = Ok (VArr []) ->
  isAllowed toLowerCase hostname (VArr []) = Ok false
  /\ shouldBeBlocked (fst (handleState toLowerCase hostname newState e)) = true
  /\ (getOverlay e = None -> document e <> None ->
      exists d,
        appendChild_to_root overlay_element (document e) = Ok d
        /\ handleState toLowerCase hostname newState e
           = (mkEnforcer true true d, Ok tt)
        /\ getElementById OVERLAY_ID d = Some overlay_element
        /\ count OVERLAY_ID d = 1
        /\ overlay_shown d = true)
  /\ (getOverlay e <> None ->
      handleState toLowerCase hostname newState e
      = (mkEnforcer true true (document e), Ok tt))
  /\ (document e = None ->
      handleState toLowerCase hostname newState e
      = (mkEnforcer true (mutationObserverActive e) None, Throw TypeError)).
Proof.
  intros Hla Had. split; [apply isAllowed_empty|].
  rewrite (handleState_blocked toLowerCase hostname newState e Hla eq_refl Had)
    by apply isAllowed_empty.
  split; [apply blocked_branch_outcome | apply blocked_branch_cases].
Qed.


(** C7 (as amended): the observer's callback looks for an element with
    the overlay's id, not for the overlay.  When [shouldBeBlocked] is true,
    no element with that id is in the document and the document has a root
    element, one run of the callback appends the overlay under the root,
    without any state message.  When [shouldBeBlocked] is false, or an
    element with that id is present (the overlay or an element the page put
    there), the callback changes nothing; when the root element is gone it
    throws and nothing is recreated. *)
Theorem observer_callback_self_heals (e : Enforcer) :
  (shouldBeBlocked e = true -> getOverlay e = None -> document e <> None ->
   exists e',
     observer_callback e = (e', Ok tt)
     /\ getOverlay e' = Some overlay_element
     /\ count OVERLAY_ID (document e') = 1
     /\ appendChild_to_root overlay_element (document e) = Ok (document e')
     /\ overlay_shown (document e') = true
     /\ shouldBeBlocked e' = true)
  /\ (shouldBeBlocked e = false -> observer_callback e = (e, Ok tt))
  /\ (getOverlay e <> None -> observer_callback e = (e, Ok tt))
  /\ (shouldBeBlocked e = true -> document e = None ->
      observer_callback e = (e, Throw TypeError)).
Proof.
  split; [|split; [|split]].
  - intros Hb Hgone Hroot. unfold observer_callback.
    rewrite Hb, Hgone. cbn [andb].
    destruct (createOverlay_absent e Hroot Hgone)
      as (d & -> & Happ & _ & Hfind & Hcount).
    exists (set_document d e). unfold getOverlay. simpl.
    repeat split; try assumption.
    exact (appended_overlay_shown _ Happ).
  - intros Hb. unfold observer_callback. rewrite Hb. reflexivity.
  - intros Hsome. unfold observer_callback.
    destruct (getOverlay e); [|congruence].
    now rewrite andb_false_r.
  - intros Hb Hd. unfold observer_callback.
    assert (Hnone : getOverlay e = None)
      by (unfold getOverlay; now rewrite Hd).
    rewrite Hb, Hnone. cbn [andb]. now apply createOverlay_rootless.
Qed.

(** C8: [createOverlay] is idempotent: run twice in a row it does what one
    run does, the second run being a no-op; on a document with a root
    element and unique ids exactly one element with [OVERLAY_ID] is present
    afterwards. *)
Theorem createOverlay_idempotent (e : Enforcer) :
  bind createOverlay (fun _ => createOverlay) e = createOverlay e
  /\ (document e <> None -> count OVERLAY_ID (document e) <= 1 ->
      exists e1,
        createOverlay e = (e1, Ok tt)
        /\ createOverlay e1 = (e1, Ok tt)
        /\ count OVERLAY_ID (document e1) = 1).
Proof.
  split.
  - unfold bind. destruct (document e) eqn:Hd.
    + destruct (createOverlay_ensures e) as (e1 & H1 & Hov & _);
        [congruence|].
      rewrite H1. now apply createOverlay_present.
    + rewrite createOverlay_rootless by exact Hd. reflexivity.
  - intros Hroot Hle. destruct (getOverlay e) eqn:E.
    + exists e. rewrite createOverlay_present by congruence.
      repeat split.
      assert (1 <= count OVERLAY_ID (document e))
        by (apply getElementById_some_count; unfold getOverlay in E; congruence).
      lia.
    + destruct (createOverlay_absent e Hroot E)
        as (d & -> & _ & _ & Hfind & Hcount).
      exists (set_document d e). repeat split.
      * apply createOverlay_present. unfold getOverlay. simpl. congruence.
      * exact Hcount.
Qed.

(** C10: a state whose [lockActive] is truthy and whose [allowedDomains]
    is missing, [undefined] or [null] is handled as full focus:
    [handleState] puts the empty list in its place, [isAllowed] answers
    false, and the Enforcer targets Blocked on every host name, with the
    overlay present on a document that has a root element. *)
Theorem missing_list_is_full_focus (hostname : jsstring)
        (newState lockActive allowedDomains : JsVal) (e : Enforcer) :
  get newState (lit "lockActive") = Ok lockActive ->
  truthy lockActive = true ->
  get newState (lit "allowedDomains") = Ok allowedDomains ->
  allowedDomains = VUndefined \/ allowedDomains = VNull ->
  or_else allowedDomains (VArr []) = VArr []
  /\ handleState toLowerCase hostname newState e
     = handleState toLowerCase hostname
         (VObj [(lit "lockActive", VBool true); (lit "allowedDomains", VArr [])])
         e
  /\ shouldBeBlocked (fst (handleState toLowerCase hostname newState e)) = true
  /\ (document e <> None ->
      exists e',
        handleState toLowerCase hostname newState e = (e', Ok tt)
        /\ shouldBeBlocked e' = true
        /\ getOverlay e' <> None
        /\ mutationObserverActive e' = true).
Proof.
  intros Hla Htruthy Had Hmissing.
  assert (Hor : or_else allowedDomains (VArr []) = VArr [])
    by (destruct Hmissing as [-> | ->]; reflexivity).
  split; [exact Hor|].
  assert (Hrun : handleState toLowerCase hostname newState e
                 = bind createOverlay (fun _ => setupMutationObserver)
                        (set_shouldBeBlocked true e)).
  { apply (handleState_blocked toLowerCase hostname newState e Hla Htruthy Had).
    rewrite Hor. apply isAllowed_empty. }
  split.
  - rewrite Hrun. symmetry.
    apply (@handleState_blocked toLowerCase hostname _ (VBool true) (VArr []));
      reflexivity.
  - rewrite Hrun. apply blocked_branch_outcome.
Qed.

End EnforcerProperties.

(* ===================================================================== *)
(** * Facts about the Relay's event loop                                  *)
(* ===================================================================== *)

Section RelayFacts.

Lemma filter_self_pos (t : TimerId) :
  filter (fun t' => negb (Pos.eqb t t')) [t] = [].
Proof. simpl. now rewrite Pos.eqb_refl. Qed.

Lemma scheduleReconnect_pending (r : Relay) (t : TimerId) :
  reconnectTimeout r = Some t -> scheduleReconnect r = r.
Proof. unfold scheduleReconnect. now intros ->. Qed.

Lemma scheduleReconnect_idle (r : Relay) :
  reconnectTimeout r = None ->
  scheduleReconnect r
  = set_reconnectTimeout (Some (next_timer r))
      (emit (ESetTimeout (next_timer r) 2000)
         (set_next_timer (Pos.succ (next_timer r))
            (set_timers (timers r ++ [next_timer r]) r))).
Proof. unfold scheduleReconnect. now intros ->. Qed.

Lemma scheduleReconnect_tracked (r : Relay) :
  timers_tracked r ->
  timers_tracked (scheduleReconnect r)
  /\ length (timers (scheduleReconnect r)) = 1
  /\ sockets (scheduleReconnect r) = sockets r
  /\ state (scheduleReconnect r) = state r.
Proof.
  unfold timers_tracked. intros Ht.
  destruct (reconnectTimeout r) as [t|] eqn:E.
  - rewrite (scheduleReconnect_pending r E), E, Ht. repeat split.
  - rewrite (scheduleReconnect_idle r E). simpl. rewrite Ht. repeat split.
Qed.

Lemma onclose_tracked (r : Relay) :
  timers_tracked r ->
  timers_tracked (onclose r)
  /\ length (timers (onclose r)) = 1
  /\ sockets (onclose r) = sockets r
  /\ state (onclose r) = default_state.
Proof.
  intros Ht. unfold onclose.
  match goal with |- context [scheduleReconnect ?x] => set (r1 := x) end.
  assert (H1 : timers_tracked r1) by exact Ht.
  destruct (scheduleReconnect_tracked H1) as (A & B & C & D).
  repeat split; assumption.
Qed.

(** A close while a reconnect is pending leaves the timer alone. *)
Lemma onclose_pending (r : Relay) (t : TimerId) :
  reconnectTimeout r = Some t ->
  timers (onclose r) = timers r /\ reconnectTimeout (onclose r) = Some t.
Proof.
  intros H. unfold onclose, scheduleReconnect. simpl. rewrite H.
  split; [reflexivity | exact H].
Qed.

Lemma connect_tracked (constructed : bool) (r : Relay) :
  timers_tracked r ->
  timers_tracked (connect constructed r)
  /\ (if constructed
      then timers (connect constructed r) = []
           /\ sockets (connect constructed r) = sockets r ++ [next_socket r]
      else length (timers (connect constructed r)) = 1
           /\ sockets (connect constructed r) = sockets r).
Proof.
  unfold timers_tracked. intros Ht. unfold connect.
  match goal with
  | |- context [if constructed then _ else scheduleReconnect (emit _ ?x)] =>
      set (r1 := x)
  end.
  assert (H1 : timers r1 = [] /\ reconnectTimeout r1 = None
               /\ sockets r1 = sockets r /\ next_socket r1 = next_socket r).
  { subst r1. destruct (reconnectTimeout r) as [t|] eqn:E.
    - simpl. rewrite Ht, filter_self_pos. repeat split.
    - repeat split; assumption. }
  destruct H1 as (Ht1 & Hr1 & Hs1 & Hn1).
  destruct constructed.
  - simpl. rewrite Ht1, Hr1, Hs1, Hn1. repeat split.
  - match goal with |- context [scheduleReconnect ?x] => set (r2 := x) end.
    assert (H2 : timers_tracked r2)
      by (unfold timers_tracked; subst r2; simpl; now rewrite Ht1, Hr1).
    destruct (scheduleReconnect_tracked H2) as (A & B & C & _).
    repeat split; [exact A | exact B | rewrite C; exact Hs1].
Qed.

Lemma tabs_callback_frame (tabs : list Tab) (r : Relay) :
  ws (tabs_callback tabs r) = ws r
  /\ state (tabs_callback tabs r) = state r
  /\ reconnectTimeout (tabs_callback tabs r) = reconnectTimeout r
  /\ sockets (tabs_callback tabs r) = sockets r
  /\ timers (tabs_callback tabs r) = timers r
  /\ queries (tabs_callback tabs r) = queries r
  /\ out (tabs_callback tabs r)
     = out r ++ map (fun n => ESendMessage n (state_message (state r)))
                    (targets tabs).
Proof.
  unfold tabs_callback. generalize (targets tabs) as ns.
  intros ns. revert r. induction ns as [|n ns IH]; intros r; simpl.
  - rewrite app_nil_r. repeat split.
  - destruct (IH (emit (ESendMessage n (state_message (state r))) r))
      as (A & B & C & D & E & F & G).
    rewrite A, B, C, D, E, F, G. simpl. rewrite <- app_assoc.
    repeat split.
Qed.

(** The loop of the callback, tab by tab. *)
Lemma tabs_callback_sends (tabs : list Tab) (r : Relay) :
  out (tabs_callback tabs r)
  = out r ++ one_message_per_tab (state_message (state r)) tabs.
Proof.
  destruct (tabs_callback_frame tabs r) as (_ & _ & _ & _ & _ & _ & G).
  rewrite G. f_equal. clear G. unfold one_message_per_tab.
  induction tabs as [|[[n|]] tabs IH]; simpl; [reflexivity | | exact IH].
  unfold tab_target. cbn [tab_id].
  destruct (n =? 0)%Z; simpl; [exact IH | now rewrite IH].
Qed.

Lemma on_runtime_message_frame (message : JsVal) (r : Relay) :
  state (on_runtime_message message r) = state r
  /\ reconnectTimeout (on_runtime_message message r) = reconnectTimeout r
  /\ sockets (on_runtime_message message r) = sockets r
  /\ timers (on_runtime_message message r) = timers r
  /\ (out (on_runtime_message message r) = out r
      \/ out (on_runtime_message message r) = out r ++ [ESendResponse (state r)]).
Proof.
  unfold on_runtime_message.
  destruct (get message (lit "type")) as [[| | | |t| |]|];
    try (repeat split; now left).
  destruct (str_eqb t (lit "GET_STATE")); repeat split; auto.
Qed.

Lemma onmessage_frame (data : jsstring) (r : Relay) :
  reconnectTimeout (onmessage data r) = reconnectTimeout r
  /\ sockets (onmessage data r) = sockets r
  /\ timers (onmessage data r) = timers r.
Proof.
  unfold onmessage. destruct (Json.parse data); repeat split.
Qed.

Lemma live_in (s : SocketId) (r : Relay) : live s r = true -> In s (sockets r).
Proof.
  unfold live. rewrite existsb_exists. intros (x & Hin & Hx).
  apply Nat.eqb_eq in Hx. now subst.
Qed.

Lemma pending_in (t : TimerId) (r : Relay) : pending t r = true -> In t (timers r).
Proof.
  unfold pending. rewrite existsb_exists. intros (x & Hin & Hx).
  apply Pos.eqb_eq in Hx. now subst.
Qed.

(** Every turn of the event loop keeps the invariant. *)
Lemma step_invariant (ev : Event) (r r' : Relay) :
  relay_invariant r -> step ev r = Some r' -> relay_invariant r'.
Proof.
  intros [Ht Hl] Hstep. unfold single_link in Hl.
  destruct ev as [s|s data|s|s|t c|tabs|message]; simpl in Hstep.
  - destruct (live s r); [|discriminate]. injection Hstep as <-.
    split; [exact Ht | exact Hl].
  - destruct (live s r); [|discriminate]. injection Hstep as <-.
    destruct (onmessage_frame data r) as (A & B & C).
    split; [unfold timers_tracked | unfold single_link]; rewrite ?A, ?B, ?C;
      assumption.
  - destruct (live s r); [|discriminate]. injection Hstep as <-.
    split; assumption.
  - destruct (live s r) eqn:Hlive; [|discriminate]. injection Hstep as <-.
    apply live_in in Hlive.
    destruct (sockets r) as [|s0 [|s1 l]] eqn:Hs; simpl in Hl, Hlive;
      [tauto | | lia].
    destruct Hlive as [->|[]].
    destruct (timers r) eqn:Htm; [|simpl in Hl; lia].
    match goal with |- relay_invariant (onclose ?x) => set (r1 := x) end.
    assert (H1 : timers_tracked r1)
      by (unfold timers_tracked in *; subst r1; simpl; now rewrite <- Ht).
    destruct (onclose_tracked H1) as (A & B & C & _).
    split; [exact A|]. unfold single_link. rewrite B, C. subst r1. simpl.
    now rewrite Nat.eqb_refl.
  - destruct (pending t r) eqn:Hp; [|discriminate]. injection Hstep as <-.
    apply pending_in in Hp.
    destruct (timers r) as [|t0 [|t1 l]] eqn:Htm; simpl in Hl, Hp;
      [tauto | | lia].
    destruct Hp as [->|[]].
    destruct (sockets r) eqn:Hs; [|simpl in Hl; lia].
    unfold reconnect_callback.
    match goal with |- relay_invariant (connect c ?x) => set (r1 := x) end.
    assert (H1 : timers_tracked r1)
      by (unfold timers_tracked; subst r1; simpl; now rewrite Pos.eqb_refl).
    destruct (connect_tracked c H1) as (A & B).
    split; [exact A|]. unfold single_link.
    destruct c; destruct B as (B1 & B2); rewrite B1, B2; subst r1; simpl;
      rewrite Hs; reflexivity.
  - destruct (queries r) as [|n]; [discriminate|]. injection Hstep as <-.
    destruct (tabs_callback_frame tabs (set_queries n r))
      as (_ & _ & C & D & E & _).
    split; [unfold timers_tracked | unfold single_link]; rewrite ?C, ?D, ?E;
      assumption.
  - injection Hstep as <-.
    destruct (on_runtime_message_frame message r) as (_ & B & C & D & _).
    split; [unfold timers_tracked | unfold single_link]; rewrite ?B, ?C, ?D;
      assumption.
Qed.

Lemma init_invariant (constructed : bool) : relay_invariant (init constructed).
Proof. destruct constructed; split; reflexivity. Qed.

Lemma run_invariant (evs : list Event) (r r' : Relay) :
  relay_invariant r -> run evs r = Some r' -> relay_invariant r'.
Proof.
  revert r. induction evs as [|ev evs IH]; intros r Hinv; simpl.
  - now intros [= <-].
  - destruct (step ev r) as [r1|] eqn:E; [|discriminate].
    apply IH. exact (step_invariant ev Hinv E).
Qed.

Lemma reachable_invariant (r : Relay) : reachable r -> relay_invariant r.
Proof.
  intros (c & evs & Hrun). exact (run_invariant evs (init_invariant c) Hrun).
Qed.

End RelayFacts.

(* ===================================================================== *)
(** * Properties of the Relay                                             *)
(* ===================================================================== *)

Section RelayProperties.

(** With no socket alive, the cached state stays the default until the
    reconnect timer fires, and whatever is broadcast meanwhile is the
    default. *)
Lemma quiet_until_reconnect (evs : list Event) :
  forall r r2,
    sockets r = [] -> state r = default_state ->
    no_timeout evs = true -> run evs r = Some r2 ->
    state r2 = default_state
    /\ sockets r2 = []
    /\ exists efs, out r2 = out r ++ efs /\ default_only efs.
Proof.
  induction evs as [|ev evs IH]; intros r r2 Hs Hst Hq Hrun; simpl in Hrun.
  - injection Hrun as <-. repeat split; try assumption.
    exists []. split; [now rewrite app_nil_r | constructor].
  - simpl in Hq. apply andb_true_iff in Hq as [Hev Hq].
    destruct (step ev r) as [r1|] eqn:E; [|discriminate].
    assert (H1 : state r1 = default_state /\ sockets r1 = []
                 /\ exists efs, out r1 = out r ++ efs /\ default_only efs).
    { destruct ev as [s|s data|s|s|t c|tabs|message]; simpl in E;
        unfold live in E; rewrite ?Hs in E; simpl in E; try discriminate.
      - destruct (queries r) as [|n]; [discriminate|]. injection E as <-.
        destruct (tabs_callback_frame tabs (set_queries n r))
          as (_ & B & _ & D & _ & _ & G).
        rewrite B, D, G. simpl. repeat split; try assumption.
        eexists. split; [reflexivity|]. rewrite Hst.
        unfold default_only. apply Forall_forall. intros ef Hin.
        apply in_map_iff in Hin as (n' & <- & _). reflexivity.
      - injection E as <-.
        destruct (on_runtime_message_frame message r) as (A & _ & C & _ & G).
        rewrite A, C. repeat split; try assumption.
        destruct G as [-> | ->].
        + exists []. split; [now rewrite app_nil_r | constructor].
        + eexists. split; [reflexivity|]. repeat constructor. exact Hst. }
    destruct H1 as (Hst1 & Hs1 & efs1 & Hout1 & Hd1).
    destruct (IH r1 r2 Hs1 Hst1 Hq Hrun) as (A & B & efs2 & Hout2 & Hd2).
    repeat split; try assumption.
    exists (efs1 ++ efs2). split.
    + now rewrite Hout2, Hout1, app_assoc.
    + apply Forall_app. split; assumption.
Qed.

(** The message the default state is broadcast as. *)
Lemma default_message :
  state_message default_state
  = VObj [(lit "type", VStr (lit "STATE"));
          (lit "lockActive", VBool false);
          (lit "allowedDomains", VArr [])].
Proof. reflexivity. Qed.

(** C2 (as amended): when the close handler fires it sets the cached
    state to the safe default, calls [broadcastState], which only starts
    the tab query, and then schedules the reconnect unless one is pending.
    The messages go out when the query calls back: one to each reported
    tab with a non-zero id, in order, carrying the state cached at that
    moment.  A callback that runs next sends the default; so does any
    callback that runs before the reconnect timer fires, for from a state
    the worker can reach no socket is alive until then, the cached state
    stays the default and nothing else is sent or answered.  An Enforcer
    that receives the default targets Unblocked and removes the element
    [getOverlay] finds. *)
Theorem disconnect_fails_open (r : Relay) :
  state (onclose r) = default_state
  /\ out (onclose r)
     = out r
       ++ [ELog "[Prodblock] Disconnected, will retry..."; ETabsQuery]
       ++ match reconnectTimeout r with
          | None => [ESetTimeout (next_timer r) 2000]
          | Some _ => []
          end
  /\ queries (onclose r) = S (queries r)
  /\ reconnectTimeout (onclose r) <> None
  /\ (forall tabs,
        exists r3,
          step (EvTabs tabs) (onclose r) = Some r3
          /\ state r3 = default_state
          /\ out r3
             = out (onclose r)
               ++ one_message_per_tab (state_message default_state) tabs)
  /\ (forall tabs r' r3,
        step (EvTabs tabs) r' = Some r3 ->
        out r3 = out r' ++ one_message_per_tab (state_message (state r')) tabs)
  /\ (forall s r1 evs r2,
        reachable r -> step (EvClose s) r = Some r1 ->
        no_timeout evs = true -> run evs r1 = Some r2 ->
        state r2 = default_state
        /\ sockets r2 = []
        /\ (exists efs, out r2 = out r1 ++ efs /\ default_only efs)
        /\ (forall tabs r3,
              step (EvTabs tabs) r2 = Some r3 ->
              out r3
              = out r2
                ++ one_message_per_tab (state_message default_state) tabs))
  /\ (forall toLowerCase hostname e,
        on_message toLowerCase hostname (state_message default_state) e
        = removeOverlay (set_shouldBeBlocked false e)
        /\ exists e',
             on_message toLowerCase hostname (state_message default_state) e
             = (e', Ok tt)
             /\ shouldBeBlocked e' = false
             /\ document e'
                = match getOverlay e with
                  | Some _ => remove_first OVERLAY_ID (document e)
                  | None => document e
                  end
             /\ (count OVERLAY_ID (document e) <= 1 -> getOverlay e' = None)).
Proof.
  assert (Hstate : state (onclose r) = default_state).
  { unfold onclose, scheduleReconnect.
    destruct (reconnectTimeout _); reflexivity. }
  assert (Hqueries : queries (onclose r) = S (queries r)).
  { unfold onclose, scheduleReconnect. simpl.
    destruct (reconnectTimeout r); reflexivity. }
  assert (Hsends : forall tabs r' r3,
            step (EvTabs tabs) r' = Some r3 ->
            out r3
            = out r' ++ one_message_per_tab (state_message (state r')) tabs).
  { intros tabs r' r3 Hstep. simpl in Hstep.
    destruct (queries r') as [|n]; [discriminate|]. injection Hstep as <-.
    apply (tabs_callback_sends tabs (set_queries n r')). }
  split; [exact Hstate|].
  split; [|split; [exact Hqueries|split; [|split; [|split; [exact Hsends|split]]]]].
  - unfold onclose, scheduleReconnect. simpl.
    destruct (reconnectTimeout r); simpl; now rewrite <- !app_assoc.
  - unfold onclose, scheduleReconnect. simpl.
    destruct (reconnectTimeout r) eqn:E; simpl; congruence.
  - intros tabs.
    exists (tabs_callback tabs (set_queries (queries r) (onclose r))).
    split; [simpl; now rewrite Hqueries|].
    destruct (tabs_callback_frame tabs (set_queries (queries r) (onclose r)))
      as (_ & B & _).
    split; [now rewrite B|].
    rewrite tabs_callback_sends. simpl. now rewrite Hstate.
  - intros s r1 evs r2 Hreach Hstep Hq Hrun.
    destruct (reachable_invariant Hreach) as [Ht Hl].
    unfold single_link in Hl. simpl in Hstep.
    destruct (live s r) eqn:Hlive; [|discriminate]. injection Hstep as <-.
    apply live_in in Hlive.
    destruct (sockets r) as [|s0 [|s1 l]] eqn:Hs; simpl in Hl, Hlive;
      [tauto | | lia].
    destruct Hlive as [->|[]].
    match goal with _ : run evs (onclose ?x) = _ |- _ => set (r0 := x) in * end.
    assert (H0 : timers_tracked r0) by exact Ht.
    destruct (onclose_tracked H0) as (_ & _ & C & D).
    assert (Hquiet : state r2 = default_state /\ sockets r2 = []
                     /\ exists efs, out r2 = out (onclose r0) ++ efs
                                     /\ default_only efs).
    { apply (@quiet_until_reconnect evs (onclose r0)); try assumption.
      rewrite C. subst r0. simpl. now rewrite Nat.eqb_refl. }
    destruct Hquiet as (Q1 & Q2 & Q3).
    repeat split; try assumption.
    intros tabs r3 Hcb. rewrite <- Q1. exact (Hsends tabs r2 r3 Hcb).
  - intros toLowerCase hostname e.
    assert (Hrun : on_message toLowerCase hostname
                     (state_message default_state) e
                   = removeOverlay (set_shouldBeBlocked false e)).
    { rewrite default_message.
      unfold on_message, bind at 1, lift at 1. cbn [get lookup from_option].
      change (str_eqb (lit "type") (lit "type")) with true. cbv iota.
      change (str_eqb (lit "STATE") (lit "STATE")) with true. cbv iota.
      now apply (@handleState_unlocked toLowerCase hostname _ (VBool false)). }
    split; [exact Hrun|].
    destruct (unblocked_branch_outcome e) as (e' & H1 & H2 & _ & H3 & H4).
    exists e'. rewrite Hrun. repeat split; assumption.
Qed.

(** C3 (as amended): a frame that does not parse leaves the cached state
    and the pending broadcasts as they were and is only logged; a frame
    that parses to any value at all, of the lock-state shape or not,
    replaces the cached state with that value and starts a broadcast. *)
Theorem onmessage_replaces_on_parse (data : jsstring) (r : Relay) :
  (Json.parse data = None ->
   state (onmessage data r) = state r
   /\ queries (onmessage data r) = queries r
   /\ out (onmessage data r)
      = out r ++ [EError "[Prodblock] Failed to parse message:"])
  /\ (forall newState,
        Json.parse data = Some newState ->
        state (onmessage data r) = newState
        /\ queries (onmessage data r) = S (queries r)
        /\ out (onmessage data r) = out r ++ [ETabsQuery])
  /\ reconnectTimeout (onmessage data r) = reconnectTimeout r
  /\ sockets (onmessage data r) = sockets r
  /\ timers (onmessage data r) = timers r.
Proof.
  split; [|split].
  - unfold onmessage. intros ->. repeat split.
  - unfold onmessage. intros newState ->. repeat split.
  - apply onmessage_frame.
Qed.

(** C4 (as amended): [connect()] itself does not look for an existing
    connection; it cancels a pending reconnect timer first and then opens a
    new socket.  The worker calls it at start-up and from the reconnect
    timer only, the timer is armed only when a socket has closed, and so in
    every state the worker can reach at most one socket is alive, a live
    socket and a pending reconnect never coexist, and the timer finds no
    socket alive when it fires. *)
Theorem single_live_connection (constructed : bool) (evs : list Event)
        (r : Relay) :
  run evs (init constructed) = Some r ->
  length (sockets r) <= 1
  /\ length (sockets r) + length (timers r) = 1
  /\ (forall t c r',
        step (EvTimeout t c) r = Some r' ->
        sockets r = [] /\ length (sockets r') <= 1)
  /\ (forall t,
        reconnectTimeout r = Some t ->
        out (connect true r)
        = out r ++ [EClearTimeout t; ENewSocket WS_URL (next_socket r)]
        /\ timers (connect true r) = []
        /\ reconnectTimeout (connect true r) = None)
  /\ sockets (connect true r) = sockets r ++ [next_socket r].
Proof.
  intros Hrun.
  assert (Hreach : reachable r) by (exists constructed, evs; exact Hrun).
  pose proof (reachable_invariant Hreach) as Hinv.
  destruct Hinv as [Ht Hl]. pose proof Hl as Hl'. unfold single_link in Hl'.
  split; [lia|]. split; [exact Hl|]. split; [|split].
  - intros t c r' Hstep.
    pose proof (step_invariant _ (conj Ht Hl) Hstep) as [_ Hl1].
    unfold single_link in Hl1. split; [|lia].
    simpl in Hstep. destruct (pending t r) eqn:Hp; [|discriminate].
    apply pending_in in Hp.
    destruct (timers r); [destruct Hp|].
    destruct (sockets r); [reflexivity | simpl in Hl'; lia].
  - intros t Hsome. unfold timers_tracked in Ht. rewrite Hsome in Ht.
    unfold connect. rewrite Hsome. simpl. rewrite Ht, filter_self_pos.
    rewrite <- app_assoc. repeat split.
  - destruct (connect_tracked true Ht) as (_ & _ & B). exact B.
Qed.

(** C9: in every state the worker can reach at most one reconnect timer is
    pending; [scheduleReconnect] does nothing while one is pending; and
    however many times in a row the close handler runs, still one timer is
    pending, a second close adding none to the first. *)
Theorem reconnect_timer_is_single (constructed : bool) (evs : list Event)
        (r : Relay) :
  run evs (init constructed) = Some r ->
  length (timers r) <= 1
  /\ (forall t, reconnectTimeout r = Some t -> scheduleReconnect r = r)
  /\ (forall n, length (timers (Nat.iter (S n) onclose r)) = 1)
  /\ timers (onclose (onclose r)) = timers (onclose r)
  /\ reconnectTimeout (onclose (onclose r)) = reconnectTimeout (onclose r).
Proof.
  intros Hrun.
  assert (Hreach : reachable r) by (exists constructed, evs; exact Hrun).
  destruct (reachable_invariant Hreach) as [Ht Hl]. unfold single_link in Hl.
  split; [lia|]. split; [apply scheduleReconnect_pending|].
  assert (Hiter : forall n, timers_tracked (Nat.iter n onclose r)).
  { induction n as [|n IH]; [exact Ht|]. simpl.
    now apply onclose_tracked. }
  split.
  - intros n. simpl. now apply onclose_tracked.
  - destruct (onclose_tracked Ht) as (A & B & _).
    unfold timers_tracked in A.
    destruct (reconnectTimeout (onclose r)) as [t|] eqn:E;
      [|rewrite A in B; discriminate].
    destruct (onclose_pending (onclose r) E) as [C D].
    now rewrite C, D.
Qed.

End RelayProperties.

(* ===================================================================== *)
(** * The properties at concrete inputs                                   *)
(* ===================================================================== *)

Section Instances.

(** Closed goals are settled by evaluating both sides. *)
Ltac evaluate := lazy; reflexivity.

(** The three cases the specification lists for the exemption test. *)
Example isAllowed_www_mixed_case :
  isAllowed toLowerCase_ascii (lit "www.Example.com")
            (VArr [VStr (lit "example.com")]) = Ok true.
Proof. reflexivity. Qed.

Example isAllowed_not_a_label_boundary :
  isAllowed toLowerCase_ascii (lit "notexample.com")
            (VArr [VStr (lit "example.com")]) = Ok false.
Proof. reflexivity. Qed.

Example isAllowed_subdomain :
  isAllowed toLowerCase_ascii (lit "sub.example.com")
            (VArr [VStr (lit "example.com")]) = Ok true.
Proof. reflexivity. Qed.

(** The [www.] pattern is matched before lower-casing. *)
Example isAllowed_upper_case_www :
  isAllowed toLowerCase_ascii (lit "WWW.example.com")
            (VArr [VStr (lit "example.com")]) = Ok true
  /\ toLowerCase_ascii (strip_www (lit "WWW.example.com"))
     = lit "www.example.com".
Proof. split; reflexivity. Qed.

(** An entry that is not a string has no [trim]. *)
Example isAllowed_non_string_entry :
  isAllowed toLowerCase_ascii (lit "example.com")
            (VArr [VNum (num_of_nat 5); VStr (lit "example.com")])
  = Throw TypeError.
Proof. reflexivity. Qed.

(** C1, the claim as written fails: the host name [example.com.] ends with
    a dot followed by the empty entry, yet [isAllowed] skips an empty entry
    and answers false. *)
Lemma isAllowed_skips_empty_entry :
  ~ (isAllowed toLowerCase_ascii (lit "example.com.") (VArr [VStr (lit "")])
     = Ok true
     <-> toLowerCase_ascii (strip_www (lit "example.com."))
         = toLowerCase_ascii (trim (lit ""))
         \/ exists pre,
              toLowerCase_ascii (strip_www (lit "example.com."))
              = pre ++ lit "." ++ toLowerCase_ascii (trim (lit ""))).
Proof.
  intros [_ H].
  assert (Habs : isAllowed toLowerCase_ascii (lit "example.com.")
                           (VArr [VStr (lit "")]) = Ok true).
  { apply H. right. exists (lit "example.com"). reflexivity. }
  vm_compute in Habs. discriminate.
Qed.

Lemma isAllowed_single_domain_witness :
  isAllowed toLowerCase_ascii (lit "sub.example.com")
            (VArr [VStr (lit " Example.com ")]) = Ok true
  <-> toLowerCase_ascii (strip_www (lit "sub.example.com"))
      = toLowerCase_ascii (trim (lit " Example.com "))
      \/ exists pre,
           toLowerCase_ascii (strip_www (lit "sub.example.com"))
           = pre ++ lit "." ++ toLowerCase_ascii (trim (lit " Example.com ")).
Proof.
  apply (proj1 (isAllowed_single_domain toLowerCase_ascii
                  (lit "sub.example.com") (lit " Example.com "))).
  vm_compute. discriminate.
Defined.

(** C5, the claim as written fails: on a page that already holds an
    element with the overlay's id, here a plain [div] the page put there,
    full focus sets [shouldBeBlocked] and installs the observer but creates
    no overlay: the document is left as it was. *)
Lemma handleState_spares_same_id_element :
  handleState toLowerCase_ascii (lit "news.example.org")
              Samples.full_focus_message (start Samples.planted_page)
  = (mkEnforcer true true Samples.planted_page, Ok tt)
  /\ overlay_shown Samples.planted_page = false.
Proof. split; reflexivity. Qed.

Lemma full_focus_blocks_every_host_witness :
  (exists d,
     appendChild_to_root overlay_element Samples.page = Ok d
     /\ handleState toLowerCase_ascii (lit "news.example.org")
                    Samples.full_focus_message (start Samples.page)
        = (mkEnforcer true true d, Ok tt)
     /\ getElementById OVERLAY_ID d = Some overlay_element
     /\ count OVERLAY_ID d = 1
     /\ overlay_shown d = true)
  /\ handleState toLowerCase_ascii (lit "news.example.org")
                 Samples.full_focus_message (start Samples.blocked_page)
     = (mkEnforcer true true Samples.blocked_page, Ok tt)
  /\ handleState toLowerCase_ascii (lit "news.example.org")
                 Samples.full_focus_message (start None)
     = (mkEnforcer true false None, Throw TypeError).
Proof.
  split; [|split].
  - destruct (@full_focus_blocks_every_host toLowerCase_ascii
                (lit "news.example.org") Samples.full_focus_message
                (start Samples.page) eq_refl eq_refl) as (_ & _ & H & _).
    apply H; [reflexivity | discriminate].
  - destruct (@full_focus_blocks_every_host toLowerCase_ascii
                (lit "news.example.org") Samples.full_focus_message
                (start Samples.blocked_page) eq_refl eq_refl)
      as (_ & _ & _ & H & _).
    apply H. vm_compute. discriminate.
  - destruct (@full_focus_blocks_every_host toLowerCase_ascii
                (lit "news.example.org") Samples.full_focus_message
                (start None) eq_refl eq_refl) as (_ & _ & _ & _ & H).
    apply H. reflexivity.
Defined.


(** C7, the claim as written fails: the page removes the overlay and puts
    an element of the same id in its place; [shouldBeBlocked] is true, the
    overlay is gone, and the callback returns without recreating it.  So it
    does, by an exception, when the root element itself was removed. *)
Lemma observer_callback_spares_same_id_element :
  shouldBeBlocked (mkEnforcer true true Samples.planted_page) = true
  /\ overlay_shown Samples.planted_page = false
  /\ observer_callback (mkEnforcer true true Samples.planted_page)
     = (mkEnforcer true true Samples.planted_page, Ok tt)
  /\ observer_callback (mkEnforcer true true None)
     = (mkEnforcer true true None, Throw TypeError).
Proof. repeat split; reflexivity. Qed.

Lemma observer_callback_self_heals_witness :
  (exists e',
     observer_callback (mkEnforcer true true Samples.page) = (e', Ok tt)
     /\ getOverlay e' = Some overlay_element
     /\ count OVERLAY_ID (document e') = 1
     /\ appendChild_to_root overlay_element Samples.page = Ok (document e')
     /\ overlay_shown (document e') = true
     /\ shouldBeBlocked e' = true)
  /\ observer_callback (mkEnforcer false true Samples.page)
     = (mkEnforcer false true Samples.page, Ok tt)
  /\ observer_callback (mkEnforcer true true Samples.blocked_page)
     = (mkEnforcer true true Samples.blocked_page, Ok tt).
Proof.
  split; [|split].
  - apply (proj1 (observer_callback_self_heals
                    (mkEnforcer true true Samples.page)));
      [reflexivity | reflexivity | discriminate].
  - apply (proj1 (proj2 (observer_callback_self_heals
                           (mkEnforcer false true Samples.page)))).
    reflexivity.
  - apply (proj1 (proj2 (proj2 (observer_callback_self_heals
                                  (mkEnforcer true true Samples.blocked_page))))).
    vm_compute. discriminate.
Defined.

(** Self-healing on the sample page: the overlay is removed behind the
    script's back and the notified observer puts it back; a change the
    observer is not notified of leaves the page without overlay. *)
Example page_mutation_heals_when_notified :
  page_mutation Samples.page true (mkEnforcer true true Samples.blocked_page)
  = (mkEnforcer true true Samples.blocked_page, Ok tt)
  /\ page_mutation Samples.page false
                   (mkEnforcer true true Samples.blocked_page)
     = (mkEnforcer true true Samples.page, Ok tt).
Proof. split; reflexivity. Qed.

Lemma createOverlay_idempotent_witness :
  exists e1,
    createOverlay (start Samples.page) = (e1, Ok tt)
    /\ createOverlay e1 = (e1, Ok tt)
    /\ count OVERLAY_ID (document e1) = 1.
Proof.
  apply (proj2 (createOverlay_idempotent (start Samples.page)));
    [discriminate | vm_compute; lia].
Defined.

Lemma missing_list_is_full_focus_witness :
  exists e',
    handleState toLowerCase_ascii (lit "news.example.org")
                Samples.listless_message (start Samples.page) = (e', Ok tt)
    /\ shouldBeBlocked e' = true
    /\ getOverlay e' <> None
    /\ mutationObserverActive e' = true.
Proof.
  destruct (@missing_list_is_full_focus toLowerCase_ascii
              (lit "news.example.org") Samples.listless_message
              (VNum (num_of_nat 1)) VUndefined (start Samples.page)
              eq_refl eq_refl eq_refl (or_introl eq_refl)) as (_ & _ & _ & H).
  apply H. discriminate.
Defined.

(** The page after blocking is the sample page with the overlay under the
    root, and unblocking gives the sample page back. *)
Example block_then_unblock :
  handleState toLowerCase_ascii (lit "news.example.org")
              Samples.full_focus_message (start Samples.page)
  = (mkEnforcer true true Samples.blocked_page, Ok tt)
  /\ handleState toLowerCase_ascii (lit "news.example.org")
                 Samples.unlocked_message
                 (mkEnforcer true true Samples.blocked_page)
     = (mkEnforcer false true Samples.page, Ok tt).
Proof. split; reflexivity. Qed.

(** C3, the claim as written fails: the frame [42] parses, is not of the
    lock-state shape, and still replaces the cached state and starts a
    broadcast. *)
Lemma onmessage_accepts_other_shapes :
  Json.parse (lit "42") = Some (VNum (num_of_nat 42))
  /\ spec_LockState_shape (VNum (num_of_nat 42)) = false
  /\ ~ (state (onmessage (lit "42") (init true)) = state (init true)
        /\ queries (onmessage (lit "42") (init true)) = queries (init true)).
Proof.
  split; [reflexivity|]. split; [reflexivity|].
  intros [H _]. vm_compute in H. discriminate.
Qed.

Lemma onmessage_replaces_on_parse_witness :
  (state (onmessage (lit "{lockActive:") (init true)) = state (init true)
   /\ queries (onmessage (lit "{lockActive:") (init true)) = queries (init true)
   /\ out (onmessage (lit "{lockActive:") (init true))
      = out (init true) ++ [EError "[Prodblock] Failed to parse message:"])
  /\ (state (onmessage (lit "[true]") (init true)) = VArr [VBool true]
      /\ queries (onmessage (lit "[true]") (init true)) = S (queries (init true))
      /\ out (onmessage (lit "[true]") (init true))
         = out (init true) ++ [ETabsQuery]).
Proof.
  split.
  - apply (proj1 (onmessage_replaces_on_parse (lit "{lockActive:") (init true))).
    vm_compute. reflexivity.
  - apply (proj1 (proj2 (onmessage_replaces_on_parse (lit "[true]") (init true)))
             (VArr [VBool true])).
    vm_compute. reflexivity.
Defined.

(** C4, the claim as written fails: with the first socket still alive a
    further call of [connect()] is not a no-op, it opens a second one. *)
Lemma connect_opens_second_socket :
  live 0 (init true) = true
  /\ sockets (connect true (init true)) = [0; 1]
  /\ ~ connect true (init true) = init true.
Proof.
  split; [reflexivity|]. split; [reflexivity|].
  intros H. apply (f_equal sockets) in H. vm_compute in H. discriminate.
Qed.

Lemma single_live_connection_witness :
  length (sockets Samples.after_close) <= 1
  /\ length (sockets Samples.after_close)
     + length (timers Samples.after_close) = 1
  /\ (sockets Samples.after_close = []
      /\ length (sockets Samples.after_reconnect) <= 1)
  /\ (out (connect true Samples.after_close)
      = out Samples.after_close
        ++ [EClearTimeout 1%positive; ENewSocket WS_URL 1]
      /\ timers (connect true Samples.after_close) = []
      /\ reconnectTimeout (connect true Samples.after_close) = None)
  /\ sockets (connect true Samples.after_close) = [1].
Proof.
  assert (Hrun : run Samples.closed_once (init true)
                 = Some Samples.after_close) by evaluate.
  assert (Hfire : step (EvTimeout 1%positive true) Samples.after_close
                  = Some Samples.after_reconnect) by evaluate.
  assert (Hset : reconnectTimeout Samples.after_close = Some 1%positive)
    by evaluate.
  assert (Hnext : next_socket Samples.after_close = 1) by evaluate.
  assert (Hnone : sockets Samples.after_close = []) by evaluate.
  destruct (@single_live_connection true Samples.closed_once
              Samples.after_close Hrun) as (H1 & H2 & H3 & H4 & H5).
  split; [exact H1|]. split; [exact H2|].
  split; [exact (H3 1%positive true Samples.after_reconnect Hfire)|].
  rewrite Hnext in H4, H5. rewrite Hnone in H5.
  split; [exact (H4 1%positive Hset) | exact H5].
Defined.

(** C2, the claim as written fails: the close handler broadcasts nothing
    before it schedules the reconnect, it only starts the tab query.  The
    timer is set before the first message leaves, and when the query
    reports back only after the reconnect and a new lock, the broadcast of
    the close carries that lock: the tab is never sent the default and the
    Enforcer that receives this broadcast keeps its overlay. *)
Lemma close_broadcast_follows_scheduling :
  option_map out (run [EvClose 0; EvTabs [mkTab (Some 7%Z)]] (init true))
  = Some [ENewSocket WS_URL 0;
          ELog "[Prodblock] Disconnected, will retry...";
          ETabsQuery;
          ESetTimeout 1%positive 2000;
          ESendMessage 7 (state_message default_state)]
  /\ option_map out (run Samples.late_report (init true))
     = Some [ENewSocket WS_URL 0;
             ELog "[Prodblock] Disconnected, will retry...";
             ETabsQuery;
             ESetTimeout 1%positive 2000;
             ENewSocket WS_URL 1;
             ELog "[Prodblock] Connected to desktop app";
             ETabsQuery;
             ESendMessage 7 (state_message Samples.lock_state)]
  /\ on_message toLowerCase_ascii (lit "news.example.org")
                (state_message Samples.lock_state)
                (mkEnforcer true true Samples.blocked_page)
     = (mkEnforcer true true Samples.blocked_page, Ok tt).
Proof. repeat split; evaluate. Qed.

Lemma disconnect_fails_open_witness :
  (state Samples.after_report = default_state
   /\ sockets Samples.after_report = []
   /\ exists efs,
        out Samples.after_report = out Samples.after_close ++ efs
        /\ default_only efs)
  /\ out Samples.after_report
     = out Samples.after_close
       ++ [ESendMessage 7 (state_message default_state)]
  /\ exists e',
       on_message toLowerCase_ascii (lit "news.example.org")
                  (state_message default_state)
                  (mkEnforcer true true Samples.blocked_page) = (e', Ok tt)
       /\ shouldBeBlocked e' = false
       /\ document e' = Samples.page
       /\ getOverlay e' = None.
Proof.
  assert (Hreach : reachable (init true)) by (exists true, []; evaluate).
  assert (Hclose : step (EvClose 0) (init true) = Some Samples.after_close)
    by evaluate.
  assert (Hreport : run Samples.tabs_report Samples.after_close
                    = Some Samples.after_report) by evaluate.
  assert (Hcb : step (EvTabs [mkTab (Some 7%Z); mkTab None])
                     Samples.after_close = Some Samples.after_report)
    by evaluate.
  destruct (disconnect_fails_open (init true))
    as (_ & _ & _ & _ & _ & _ & Hwindow & Henforcer).
  destruct (Hwindow 0 Samples.after_close Samples.tabs_report
                    Samples.after_report Hreach Hclose eq_refl Hreport)
    as (A & B & C & _).
  destruct (Hwindow 0 Samples.after_close [] Samples.after_close
                    Hreach Hclose eq_refl eq_refl) as (_ & _ & _ & D).
  split; [repeat split; assumption|].
  split; [exact (D _ _ Hcb)|].
  destruct (Henforcer toLowerCase_ascii (lit "news.example.org")
                      (mkEnforcer true true Samples.blocked_page))
    as (_ & e' & H1 & H2 & H3 & H4).
  exists e'. split; [exact H1|]. split; [exact H2|].
  split; [rewrite H3; reflexivity | apply H4; vm_compute; lia].
Defined.

Lemma reconnect_timer_is_single_witness :
  length (timers Samples.after_close) <= 1
  /\ timers (onclose (onclose Samples.after_close))
     = timers (onclose Samples.after_close).
Proof.
  assert (Hrun : run Samples.closed_once (init true)
                 = Some Samples.after_close) by evaluate.
  destruct (@reconnect_timer_is_single true Samples.closed_once
              Samples.after_close Hrun) as (H1 & _ & _ & H2 & _).
  split; [exact H1 | exact H2].
Defined.

(** A frame of the lock-state shape is parsed into the value it denotes. *)
Example lock_frame_parses :
  Json.parse Samples.lock_frame = Some Samples.lock_state
  /\ spec_LockState_shape Samples.lock_state = true.
Proof. split; evaluate. Qed.

(** Frames the parser rejects. *)
Example malformed_frames :
  Json.parse (lit "") = None
  /\ Json.parse (lit "{lockActive:true}") = None
  /\ Json.parse (lit "[1,]") = None
  /\ Json.parse (lit "01") = None
  /\ Json.parse (lit "[object Blob]") = None.
Proof. repeat split; evaluate. Qed.

(** The fail-open scenario end to end: a lock arrives and a tab on
    [news.example.org] is blocked; the socket closes and the tab, on the
    broadcast that follows, is unblocked while the reconnect is still
    pending. *)
Example lock_then_disconnect :
  let tabs := [mkTab (Some 7%Z)] in
  let locked := run [EvOpen 0; EvMessage 0 Samples.lock_frame; EvTabs tabs]
                    (init true) in
  let closed := run [EvOpen 0; EvMessage 0 Samples.lock_frame; EvTabs tabs;
                     EvClose 0; EvTabs tabs] (init true) in
  option_map (fun r => last (out r) ETabsQuery) locked
  = Some (ESendMessage 7 (state_message Samples.lock_state))
  /\ on_message toLowerCase_ascii (lit "news.example.org")
                (state_message Samples.lock_state) (start Samples.page)
     = (mkEnforcer true true Samples.blocked_page, Ok tt)
  /\ option_map (fun r => (last (out r) ETabsQuery, state r, timers r, sockets r))
                closed
     = Some (ESendMessage 7 (state_message default_state), default_state,
             [1%positive], [])
  /\ on_message toLowerCase_ascii (lit "news.example.org")
                (state_message default_state)
                (mkEnforcer true true Samples.blocked_page)
     = (mkEnforcer false true Samples.page, Ok tt).
Proof. repeat split; evaluate. Qed.

(** A close, the broadcast and the reconnect, run. *)
Example close_then_reconnect :
  option_map (fun r => (sockets r, timers r, reconnectTimeout r, out r))
             (run Samples.reconnected (init true))
  = Some ([1], [], None,
          [ENewSocket WS_URL 0;
           ELog "[Prodblock] Disconnected, will retry...";
           ETabsQuery;
           ESetTimeout 1%positive 2000;
           ESendMessage 7 (state_message default_state);
           ENewSocket WS_URL 1]).
Proof. evaluate. Qed.

End Instances.

(* ===================================================================== *)
(** * Further properties of the exemption test                            *)
(* ===================================================================== *)

Import Reading.

Section ExemptionLists.

Variable toLowerCase : jsstring -> jsstring.

Lemma domain_matches_tolerated (host : jsstring) (d : JsVal) :
  tolerated d = true ->
  domain_matches toLowerCase host d = Ok (covers_b toLowerCase host d).
Proof.
  intros Ht. unfold domain_matches, covers_b.
  assert (Hor : or_else d (VStr (lit "")) = VStr (entry_text d)).
  { destruct d as [| |b|x|s|xs|fs]; try reflexivity; try discriminate.
    - destruct b; [discriminate | reflexivity].
    - unfold or_else. unfold tolerated in Ht.
      apply negb_true_iff in Ht. now rewrite Ht.
    - apply or_empty_string. }
  rewrite Hor.
  destruct (toLowerCase (trim (entry_text d))); reflexivity.
Qed.

Lemma domain_matches_untolerated (host : jsstring) (d : JsVal) :
  tolerated d = false ->
  domain_matches toLowerCase host d = Throw TypeError.
Proof.
  intros Ht. unfold domain_matches, or_else.
  destruct d as [| |b|x|s|xs|fs]; try discriminate; try reflexivity.
  - destruct b; [reflexivity | discriminate].
  - unfold tolerated in Ht. apply negb_false_iff in Ht. now rewrite Ht.
Qed.

Lemma covers_b_spec (host : jsstring) (d : JsVal) :
  covers_b toLowerCase host d = true <-> entry_covers toLowerCase host d.
Proof.
  unfold covers_b, entry_covers.
  destruct (toLowerCase (trim (entry_text d))) as [|c r] eqn:E.
  - split; [discriminate | intros [H _]; congruence].
  - rewrite orb_true_iff, str_eqb_eq, ends_with_suffix.
    split; [intros H; split; [discriminate | exact H] | intros [_ H]; exact H].
Qed.

Lemma some_tolerated (host : jsstring) (ds : list JsVal) :
  forallb tolerated ds = true ->
  some (domain_matches toLowerCase host) ds = Ok (existsb (covers_b toLowerCase host) ds).
Proof.
  induction ds as [|d ds IH]; simpl; [reflexivity|].
  intros H. apply andb_true_iff in H as [Hd Hds].
  rewrite (domain_matches_tolerated host d Hd). simpl.
  destruct (covers_b toLowerCase host d); [reflexivity | now apply IH].
Qed.

(** [isAllowed] on an array, in terms of [some]. *)
Lemma isAllowed_array (h : jsstring) (ds : list JsVal) :
  isAllowed toLowerCase h (VArr ds)
  = some (domain_matches toLowerCase (toLowerCase (strip_www h))) ds.
Proof.
  destruct ds as [|d ds]; [reflexivity|].
  unfold isAllowed. cbn [truthy negb].
  rewrite get_length_of_array. cbn [length rbind].
  rewrite length_nonzero. reflexivity.
Qed.

(** X1: on a list whose entries are strings or falsy values, [isAllowed]
    never throws, and it answers true exactly when some entry, trimmed and
    lower-cased, is non-empty and is the normalized host or a parent domain
    of it. *)
Theorem isAllowed_membership (h : jsstring) (ds : list JsVal) :
  forallb tolerated ds = true ->
  exists b,
    isAllowed toLowerCase h (VArr ds) = Ok b
    /\ (b = true <->
        exists d, In d ds
                  /\ entry_covers toLowerCase (toLowerCase (strip_www h)) d).
Proof.
  intros Ht. rewrite isAllowed_array, (some_tolerated _ ds Ht).
  eexists. split; [reflexivity|].
  rewrite existsb_exists. split.
  - intros (d & Hin & Hc). exists d. split; [exact Hin | now apply covers_b_spec].
  - intros (d & Hin & Hc). exists d. split; [exact Hin | now apply covers_b_spec].
Qed.

(** X2: on such lists only the set of entries matters, not their order or
    repetition, and adding entries never takes an exemption away. *)
Theorem isAllowed_order_irrelevant (h : jsstring) (ds ds' : list JsVal) :
  forallb tolerated ds = true -> forallb tolerated ds' = true ->
  incl ds ds' ->
  (isAllowed toLowerCase h (VArr ds) = Ok true ->
   isAllowed toLowerCase h (VArr ds') = Ok true)
  /\ (incl ds' ds ->
      isAllowed toLowerCase h (VArr ds') = isAllowed toLowerCase h (VArr ds)).
Proof.
  intros Ht Ht' Hincl.
  rewrite !isAllowed_array, (some_tolerated _ ds Ht), (some_tolerated _ ds' Ht').
  assert (Hmono : forall l l' : list JsVal, incl l l' ->
            existsb (covers_b toLowerCase (toLowerCase (strip_www h))) l = true ->
            existsb (covers_b toLowerCase (toLowerCase (strip_www h))) l' = true).
  { intros l l' Hll H. apply existsb_exists in H as (d & Hin & Hc).
    apply existsb_exists. exists d. split; [now apply Hll | exact Hc]. }
  split.
  - intros [= H]. f_equal. now apply (Hmono ds ds').
  - intros Hincl'. f_equal.
    destruct (existsb _ ds) eqn:E.
    + now apply (Hmono ds ds').
    + destruct (existsb _ ds') eqn:E'; [|reflexivity].
      rewrite (Hmono ds' ds Hincl' E') in E. discriminate.
Qed.

(** A match after entries [isAllowed] can look at ends the scan. *)
Lemma isAllowed_scan_hit (h : jsstring) (pre rest : list JsVal) (d : JsVal) :
  forallb tolerated pre = true -> tolerated d = true ->
  covers_b toLowerCase (toLowerCase (strip_www h)) d = true ->
  isAllowed toLowerCase h (VArr (pre ++ d :: rest)) = Ok true.
Proof.
  intros Hpre Hd Hc. rewrite isAllowed_array.
  set (host := toLowerCase (strip_www h)) in *.
  induction pre as [|p pre IH]; simpl.
  - rewrite (domain_matches_tolerated host d Hd), Hc. reflexivity.
  - simpl in Hpre. apply andb_true_iff in Hpre as [Hp Hpre].
    rewrite (domain_matches_tolerated host p Hp). simpl.
    destruct (covers_b toLowerCase host p); [reflexivity | now apply IH].
Qed.

(** An entry it cannot look at, met before any match, makes it throw. *)
Lemma isAllowed_scan_throw (h : jsstring) (pre rest : list JsVal) (d : JsVal) :
  forallb tolerated pre = true -> tolerated d = false ->
  existsb (covers_b toLowerCase (toLowerCase (strip_www h))) pre = false ->
  isAllowed toLowerCase h (VArr (pre ++ d :: rest)) = Throw TypeError.
Proof.
  intros Hpre Hd Hnone. rewrite isAllowed_array.
  set (host := toLowerCase (strip_www h)) in *.
  induction pre as [|p pre IH]; simpl.
  - now rewrite (domain_matches_untolerated host d Hd).
  - simpl in Hpre, Hnone. apply andb_true_iff in Hpre as [Hp Hpre].
    apply orb_false_iff in Hnone as [Hcp Hnone].
    rewrite (domain_matches_tolerated host p Hp), Hcp. simpl.
    now apply IH.
Qed.

Lemma none_covers (host : jsstring) (pre : list JsVal) :
  (forall p, In p pre -> ~ entry_covers toLowerCase host p) ->
  existsb (covers_b toLowerCase host) pre = false.
Proof.
  intros Hnone. destruct (existsb _ pre) eqn:E; [|reflexivity].
  apply existsb_exists in E as (p & Hin & Hc).
  exfalso. apply (Hnone p Hin). now apply covers_b_spec.
Qed.

(** X3: the first match wins and what follows it is not looked at, while
    an entry that is neither a string nor falsy, met before any match,
    makes [isAllowed] throw. *)
Theorem isAllowed_first_match_wins (h : jsstring) (pre rest : list JsVal)
        (d : JsVal) :
  forallb tolerated pre = true ->
  (tolerated d = true ->
   entry_covers toLowerCase (toLowerCase (strip_www h)) d ->
   isAllowed toLowerCase h (VArr (pre ++ d :: rest)) = Ok true)
  /\ (tolerated d = false ->
      (forall p, In p pre ->
                 ~ entry_covers toLowerCase (toLowerCase (strip_www h)) p) ->
      isAllowed toLowerCase h (VArr (pre ++ d :: rest)) = Throw TypeError).
Proof.
  intros Hpre. split.
  - intros Hd Hc. apply isAllowed_scan_hit; try assumption.
    now apply covers_b_spec.
  - intros Hd Hnone. apply isAllowed_scan_throw; try assumption.
    now apply none_covers.
Qed.

Lemma strip_www_prefixed (h : jsstring) :
  strip_www (lit "www." ++ h) = h.
Proof. reflexivity. Qed.

(** X4: a leading [www.] on the host name makes no difference to
    [isAllowed], whatever the list; only one such prefix is dropped, so the
    host name without it must not itself begin with [www.]. *)
Theorem isAllowed_www_optional (h : jsstring) (allowedDomains : JsVal) :
  starts_with h (lit "www.") = false ->
  isAllowed toLowerCase (lit "www." ++ h) allowedDomains
  = isAllowed toLowerCase h allowedDomains.
Proof.
  intros Hh. unfold isAllowed. rewrite strip_www_prefixed.
  unfold strip_www. rewrite Hh. reflexivity.
Qed.

End ExemptionLists.

(* ===================================================================== *)
(** * Further properties of the Enforcer                                  *)
(* ===================================================================== *)

Section EnforcerRuns.

Variable toLowerCase : jsstring -> jsstring.

Lemma remove_in_appended (k : jsstring) (cs : list Element) (c : Element) :
  find_in k cs = None -> str_eqb (el_id c) k = true ->
  remove_in k (cs ++ [c]) = cs.
Proof.
  intros Hnone Hc. induction cs as [|c0 cs IH]; simpl.
  - now rewrite Hc.
  - simpl in Hnone. destruct (find_id k c0) eqn:E0; [discriminate|].
    destruct c0 as [t i sh cs0]. rewrite find_id_unfold in E0. simpl el_id.
    destruct (str_eqb i k); [discriminate|].
    now rewrite IH.
Qed.

Lemma enforcer_eta (e : Enforcer) :
  mkEnforcer (shouldBeBlocked e) (mutationObserverActive e) (document e) = e.
Proof. destruct e; reflexivity. Qed.

(** X5: on a page without an overlay, creating it and removing it again
    gives back the very document the page had. *)
Theorem create_then_remove_restores (e : Enforcer) :
  getOverlay e = None -> document e <> None ->
  bind createOverlay (fun _ => removeOverlay) e = (e, Ok tt).
Proof.
  intros Hnone Hroot. unfold bind.
  destruct (createOverlay_absent e Hroot Hnone) as (d & -> & Happ & _ & Hfind & _).
  unfold removeOverlay, getOverlay. cbn [document set_document].
  rewrite Hfind. f_equal. rewrite <- (enforcer_eta e) at 2.
  unfold set_document. cbn [shouldBeBlocked mutationObserverActive]. f_equal.
  unfold getOverlay in Hnone.
  destruct (document e) as [[t i sh cs]|]; [|congruence].
  simpl in Happ. injection Happ as <-.
  unfold getElementById in Hnone. rewrite find_id_unfold in Hnone.
  unfold remove_first. simpl el_id.
  destruct (str_eqb i OVERLAY_ID); [discriminate|].
  rewrite remove_below_unfold, remove_in_appended;
    [reflexivity | exact Hnone | reflexivity].
Qed.

(** [handleState] does what the verdict on the state says. *)
Lemma handleState_by_verdict (hostname : jsstring) (newState : JsVal)
      (e : Enforcer) :
  handleState toLowerCase hostname newState e
  = match verdict toLowerCase hostname newState with
    | Throw x => (e, Throw x)
    | Ok false => removeOverlay (set_shouldBeBlocked false e)
    | Ok true => bind createOverlay (fun _ => setupMutationObserver)
                      (set_shouldBeBlocked true e)
    end.
Proof.
  unfold handleState, verdict, bind, lift, assign.
  rewrite hostname_or_empty.
  destruct (get newState (lit "lockActive")) as [la|x]; [|reflexivity].
  cbn [rbind]. destruct (truthy la); cbn [negb]; [|reflexivity].
  destruct (get newState (lit "allowedDomains")) as [ad|x]; [|reflexivity].
  cbn [rbind].
  destruct (isAllowed toLowerCase hostname (or_else ad (VArr []))) as [[|]|x];
    reflexivity.
Qed.

(** The blocked branch, when it returns. *)
Lemma blocked_branch_returns (e e' : Enforcer) :
  bind createOverlay (fun _ => setupMutationObserver)
       (set_shouldBeBlocked true e) = (e', Ok tt) ->
  shouldBeBlocked e' = true
  /\ mutationObserverActive e' = true
  /\ getOverlay e' <> None
  /\ (getOverlay e <> None -> document e' = document e)
  /\ (getOverlay e = None -> count OVERLAY_ID (document e') = 1).
Proof.
  intros Hrun.
  destruct (document e) eqn:Hd.
  - destruct (blocked_branch_outcome e) as (_ & H).
    destruct H as (e1 & Hrun1 & Hb & Hov & Hact); [congruence|].
    rewrite Hrun in Hrun1. injection Hrun1 as <-.
    repeat split; try assumption.
    + intros Hpresent. unfold bind in Hrun.
      rewrite createOverlay_present in Hrun by exact Hpresent.
      unfold setupMutationObserver in Hrun.
      destruct (mutationObserverActive (set_shouldBeBlocked true e));
        [injection Hrun as <-; exact Hd|].
      destruct (document (set_mutationObserverActive true
                            (set_shouldBeBlocked true e)));
        [injection Hrun as <-; exact Hd | discriminate].
    + intros Habsent. unfold bind in Hrun.
      destruct (createOverlay_absent (set_shouldBeBlocked true e))
        as (d & Hc & _ & _ & _ & Hcount); [simpl; congruence | exact Habsent |].
      rewrite Hc in Hrun. unfold setupMutationObserver in Hrun.
      destruct (mutationObserverActive _);
        [injection Hrun as <-; exact Hcount|].
      destruct (document (set_mutationObserverActive true _));
        [injection Hrun as <-; exact Hcount | discriminate].
  - unfold bind in Hrun. rewrite createOverlay_rootless in Hrun by exact Hd.
    discriminate.
Qed.

(** When [handleState] returns, the target it set is the verdict. *)
Lemma handleState_returns_verdict (hostname : jsstring) (newState : JsVal)
      (e e' : Enforcer) :
  handleState toLowerCase hostname newState e = (e', Ok tt) ->
  verdict toLowerCase hostname newState = Ok (shouldBeBlocked e').
Proof.
  rewrite handleState_by_verdict.
  destruct (verdict toLowerCase hostname newState) as [[|]|x];
    [| |discriminate].
  - intros Hrun. now destruct (blocked_branch_returns e Hrun) as (-> & _).
  - intros Hrun. destruct (unblocked_branch_outcome e) as (e1 & H1 & H2 & _).
    rewrite H1 in Hrun. injection Hrun as <-. now rewrite H2.
Qed.

(** X6: [handleState] decides afresh each time: two Enforcers given the
    same state on the same host end with the same target, whatever they
    held before; and when it throws on a page that has a root element, it
    has changed nothing and would have thrown in any other Enforcer
    too. *)
Theorem handleState_is_memoryless (hostname : jsstring) (newState : JsVal)
        (e1 e2 : Enforcer) :
  (forall e1' e2',
     handleState toLowerCase hostname newState e1 = (e1', Ok tt) ->
     handleState toLowerCase hostname newState e2 = (e2', Ok tt) ->
     shouldBeBlocked e1' = shouldBeBlocked e2')
  /\ (forall e1' x,
        handleState toLowerCase hostname newState e1 = (e1', Throw x) ->
        document e1 <> None ->
        e1' = e1
        /\ handleState toLowerCase hostname newState e2 = (e2, Throw x)).
Proof.
  split.
  - intros e1' e2' H1 H2.
    apply handleState_returns_verdict in H1, H2.
    rewrite H1 in H2. now injection H2.
  - intros e1' x. rewrite !handleState_by_verdict.
    destruct (verdict toLowerCase hostname newState) as [[|]|x0].
    + intros Hrun Hroot. exfalso.
      destruct (blocked_branch_outcome e1) as (_ & H).
      destruct (H Hroot) as (e' & Hok & _). rewrite Hok in Hrun. discriminate.
    + intros Hrun _. exfalso.
      destruct (unblocked_branch_outcome e1) as (e' & Hok & _).
      rewrite Hok in Hrun. discriminate.
    + intros [= <- <-] _. split; reflexivity.
Qed.

(** X7: after [handleState] has returned on a page whose ids are unique,
    the overlay is in the document exactly when the target is Blocked, and
    the ids are still unique. *)
Theorem handleState_converges (hostname : jsstring) (newState : JsVal)
        (e e' : Enforcer) :
  handleState toLowerCase hostname newState e = (e', Ok tt) ->
  count OVERLAY_ID (document e) <= 1 ->
  (getOverlay e' <> None <-> shouldBeBlocked e' = true)
  /\ count OVERLAY_ID (document e') <= 1.
Proof.
  rewrite handleState_by_verdict. intros Hrun Hle.
  destruct (verdict toLowerCase hostname newState) as [[|]|x];
    [| |discriminate].
  - destruct (blocked_branch_returns e Hrun) as (Hb & _ & Hov & Hsame & Hnew).
    split; [tauto|].
    destruct (getOverlay e) eqn:E.
    + rewrite Hsame by congruence. exact Hle.
    + rewrite Hnew by reflexivity. lia.
  - destruct (unblocked_branch_outcome e) as (e1 & H1 & H2 & _ & H3 & H4).
    rewrite H1 in Hrun. injection Hrun as <-.
    split.
    + rewrite (H4 Hle), H2. split; [congruence | discriminate].
    + apply getElementById_none_count in H4; [|exact Hle].
      unfold getOverlay in H4. lia.
Qed.

End EnforcerRuns.

Section EnforcerRepeats.

Variable toLowerCase : jsstring -> jsstring.

Lemma set_shouldBeBlocked_same (e : Enforcer) (b : bool) :
  shouldBeBlocked e = b -> set_shouldBeBlocked b e = e.
Proof. intros <-. apply enforcer_eta. Qed.

Lemma removeOverlay_absent (e : Enforcer) :
  getOverlay e = None -> removeOverlay e = (e, Ok tt).
Proof. unfold removeOverlay. now intros ->. Qed.

Lemma setupMutationObserver_active (e : Enforcer) :
  mutationObserverActive e = true -> setupMutationObserver e = (e, Ok tt).
Proof. unfold setupMutationObserver. now intros ->. Qed.

(** The blocked branch either returns or stops in [createOverlay] for want
    of a root element, the target already set. *)
Lemma blocked_branch_result (e : Enforcer) :
  (exists e', bind createOverlay (fun _ => setupMutationObserver)
                   (set_shouldBeBlocked true e) = (e', Ok tt))
  \/ (document e = None
      /\ bind createOverlay (fun _ => setupMutationObserver)
              (set_shouldBeBlocked true e)
         = (set_shouldBeBlocked true e, Throw TypeError)).
Proof.
  destruct (document e) eqn:Hd.
  - left. destruct (blocked_branch_outcome e) as (_ & H).
    destruct H as (e' & Hrun & _); [congruence|]. now exists e'.
  - right. split; [reflexivity|]. unfold bind.
    now rewrite createOverlay_rootless.
Qed.

(** X8: handling the same state a second time changes nothing more, on a
    page whose ids are unique. *)
Theorem handleState_idempotent (hostname : jsstring) (newState : JsVal)
        (e : Enforcer) :
  count OVERLAY_ID (document e) <= 1 ->
  handleState toLowerCase hostname newState
              (fst (handleState toLowerCase hostname newState e))
  = handleState toLowerCase hostname newState e.
Proof.
  intros Hle. rewrite !handleState_by_verdict.
  destruct (verdict toLowerCase hostname newState) as [[|]|x];
    [| |reflexivity].
  - destruct (blocked_branch_result e) as [(e' & Hrun) | (Hd & Hrun)];
      rewrite Hrun; cbn [fst].
    + destruct (blocked_branch_returns e Hrun) as (Hb & Hact & Hov & _).
      rewrite (set_shouldBeBlocked_same e' Hb). unfold bind.
      rewrite (createOverlay_present e' Hov).
      now rewrite (setupMutationObserver_active e' Hact).
    + unfold bind. now rewrite createOverlay_rootless.
  - destruct (unblocked_branch_outcome e) as (e' & Hrun & Hb & _ & _ & Hgone).
    rewrite Hrun. cbn [fst].
    rewrite (set_shouldBeBlocked_same e' Hb).
    now apply removeOverlay_absent, Hgone.
Qed.

Lemma createOverlay_count (e : Enforcer) :
  count OVERLAY_ID (document (fst (createOverlay e))) <= 1
  \/ count OVERLAY_ID (document (fst (createOverlay e)))
     <= count OVERLAY_ID (document e).
Proof.
  destruct (getOverlay e) eqn:E.
  - rewrite createOverlay_present by congruence. right. cbn [fst]. lia.
  - destruct (document e) eqn:Hd.
    + destruct (createOverlay_absent e) as (d & -> & _ & _ & _ & Hc);
        [congruence | exact E |].
      left. cbn [fst]. simpl. rewrite Hc. lia.
    + rewrite createOverlay_rootless by exact Hd. right. cbn [fst].
      rewrite Hd. simpl. lia.
Qed.

Lemma removeOverlay_count (e : Enforcer) :
  count OVERLAY_ID (document (fst (removeOverlay e)))
  <= count OVERLAY_ID (document e).
Proof.
  unfold removeOverlay. destruct (getOverlay e) eqn:E; cbn [fst]; [|lia].
  simpl. assert (count OVERLAY_ID (remove_first OVERLAY_ID (document e))
                 < count OVERLAY_ID (document e))
    by (apply remove_first_count; unfold getOverlay in E; congruence).
  lia.
Qed.

(** X9: the Enforcer never puts a second overlay into the page: after
    [handleState], the observer callback or [createOverlay], the elements
    carrying [OVERLAY_ID] are at most one, or no more than the page already
    had. *)
Theorem never_a_second_overlay (hostname : jsstring) (newState : JsVal)
        (e : Enforcer) :
  (count OVERLAY_ID
         (document (fst (handleState toLowerCase hostname newState e))) <= 1
   \/ count OVERLAY_ID
            (document (fst (handleState toLowerCase hostname newState e)))
      <= count OVERLAY_ID (document e))
  /\ (count OVERLAY_ID (document (fst (observer_callback e))) <= 1
      \/ count OVERLAY_ID (document (fst (observer_callback e)))
         <= count OVERLAY_ID (document e))
  /\ (count OVERLAY_ID (document (fst (createOverlay e))) <= 1
      \/ count OVERLAY_ID (document (fst (createOverlay e)))
         <= count OVERLAY_ID (document e)).
Proof.
  split; [|split].
  - rewrite handleState_by_verdict.
    destruct (verdict toLowerCase hostname newState) as [[|]|x].
    + unfold bind.
      pose proof (createOverlay_count (set_shouldBeBlocked true e)) as Hc.
      destruct (createOverlay (set_shouldBeBlocked true e)) as [e1 [u|x]];
        cbn [fst] in *; [|exact Hc].
      unfold setupMutationObserver.
      destruct (mutationObserverActive e1); cbn [fst]; [exact Hc|].
      destruct (document (set_mutationObserverActive true e1)) eqn:Hd;
        cbn [fst]; exact Hc.
    + right. apply (removeOverlay_count (set_shouldBeBlocked false e)).
    + right. cbn [fst]. lia.
  - unfold observer_callback.
    destruct (shouldBeBlocked e && _); [apply createOverlay_count|].
    right. cbn [fst]. lia.
  - apply createOverlay_count.
Qed.

(** X10: each of these makes [handleState] throw a [TypeError] and leaves
    the Enforcer exactly as it was, blocked or not: the state is [null] or
    [undefined]; the lock is on and the list has, before any matching
    entry, an entry that is neither a string nor falsy; the lock is on and
    the list is a non-empty string. *)
Theorem handleState_aborts_unchanged (hostname : jsstring) (e : Enforcer) :
  (forall newState,
     newState = VNull \/ newState = VUndefined ->
     handleState toLowerCase hostname newState e = (e, Throw TypeError))
  /\ (forall newState lockActive pre d rest,
        get newState (lit "lockActive") = Ok lockActive ->
        truthy lockActive = true ->
        get newState (lit "allowedDomains") = Ok (VArr (pre ++ d :: rest)) ->
        forallb tolerated pre = true ->
        (forall p, In p pre ->
           ~ entry_covers toLowerCase (toLowerCase (strip_www hostname)) p) ->
        tolerated d = false ->
        handleState toLowerCase hostname newState e = (e, Throw TypeError))
  /\ (forall newState lockActive c s,
        get newState (lit "lockActive") = Ok lockActive ->
        truthy lockActive = true ->
        get newState (lit "allowedDomains") = Ok (VStr (c :: s)) ->
        handleState toLowerCase hostname newState e = (e, Throw TypeError)).
Proof.
  split; [|split].
  - intros newState [-> | ->]; reflexivity.
  - intros newState la pre d rest Hla Ht Had Hpre Hnone Hd.
    rewrite handleState_by_verdict. unfold verdict.
    rewrite Hla. cbn [rbind]. rewrite Ht. cbn [negb]. rewrite Had. cbn [rbind].
    change (or_else (VArr (pre ++ d :: rest)) (VArr []))
      with (VArr (pre ++ d :: rest)).
    rewrite (isAllowed_scan_throw toLowerCase hostname pre rest d Hpre Hd);
      [reflexivity | now apply none_covers].
  - intros newState la c s Hla Ht Had.
    rewrite handleState_by_verdict. unfold verdict.
    rewrite Hla. cbn [rbind]. rewrite Ht. cbn [negb]. rewrite Had. cbn [rbind].
    change (or_else (VStr (c :: s)) (VArr [])) with (VStr (c :: s)).
    unfold isAllowed. cbn [truthy negb].
    change (get (VStr (c :: s)) (lit "length"))
      with (Ok (VNum (num_of_nat (S (length s))))).
    cbn [rbind]. now rewrite length_nonzero.
Qed.

(** X11: with the lock on and a list of strings and falsy values, the
    Enforcer unblocks the hosts the list covers and blocks all others. *)
Theorem handleState_exempts_covered_hosts (hostname : jsstring)
        (newState lockActive : JsVal) (ds : list JsVal) (e e' : Enforcer) :
  get newState (lit "lockActive") = Ok lockActive ->
  truthy lockActive = true ->
  get newState (lit "allowedDomains") = Ok (VArr ds) ->
  forallb tolerated ds = true ->
  handleState toLowerCase hostname newState e = (e', Ok tt) ->
  (shouldBeBlocked e' = false <->
   exists d, In d ds
             /\ entry_covers toLowerCase (toLowerCase (strip_www hostname)) d).
Proof.
  intros Hla Ht Had Hds Hrun.
  pose proof (handleState_returns_verdict toLowerCase hostname newState e Hrun)
    as Hv.
  unfold verdict in Hv.
  rewrite Hla in Hv. cbn [rbind] in Hv. rewrite Ht in Hv. cbn [negb] in Hv.
  rewrite Had in Hv. cbn [rbind] in Hv.
  change (or_else (VArr ds) (VArr [])) with (VArr ds) in Hv.
  rewrite isAllowed_array, (some_tolerated toLowerCase _ ds Hds) in Hv.
  cbn [rbind] in Hv. injection Hv as Hv. rewrite <- Hv, negb_false_iff.
  rewrite existsb_exists. split.
  - intros (d & Hin & Hc). exists d. split; [exact Hin | now apply covers_b_spec].
  - intros (d & Hin & Hc). exists d. split; [exact Hin | now apply covers_b_spec].
Qed.

End EnforcerRepeats.

(* ===================================================================== *)
(** * Further properties of the Relay                                     *)
(* ===================================================================== *)

Section RelayRuns.

Lemma str_eqb_sym (a b : jsstring) : str_eqb a b = str_eqb b a.
Proof.
  destruct (str_eqb a b) eqn:E.
  - apply str_eqb_eq in E. subst. symmetry. apply str_eqb_refl.
  - destruct (str_eqb b a) eqn:E'; [|reflexivity].
    apply str_eqb_eq in E'. subst. now rewrite str_eqb_refl in E.
Qed.

Lemma lookup_set_field (k k' : jsstring) (v : JsVal)
      (fs : list (jsstring * JsVal)) :
  lookup k (set_field k' v fs)
  = if str_eqb k k' then Some v else lookup k fs.
Proof.
  induction fs as [|[k0 v0] fs IH]; simpl.
  - destruct (str_eqb k k'); reflexivity.
  - destruct (str_eqb k' k0) eqn:E0; simpl.
    + apply str_eqb_eq in E0. subst k0.
      destruct (str_eqb k k'); reflexivity.
    + rewrite IH. destruct (str_eqb k k') eqn:E; [|reflexivity].
      apply str_eqb_eq in E. subst k'. now rewrite E0.
Qed.

Lemma lookup_absent (k : jsstring) (fs : list (jsstring * JsVal)) :
  ~ In k (map fst fs) -> lookup k fs = None.
Proof.
  induction fs as [|[k0 v0] fs IH]; simpl; [reflexivity|].
  intros Hn. destruct (str_eqb k k0) eqn:E.
  - apply str_eqb_eq in E. subst. tauto.
  - apply IH. tauto.
Qed.

Lemma lookup_spread (k : jsstring) (fs acc : list (jsstring * JsVal)) :
  unique_keys fs ->
  lookup k (fold_left (fun a kv => set_field (fst kv) (snd kv) a) fs acc)
  = match lookup k fs with
    | Some v => Some v
    | None => lookup k acc
    end.
Proof.
  unfold unique_keys. revert acc.
  induction fs as [|[k0 v0] fs IH]; intros acc Hu; simpl; [reflexivity|].
  inversion Hu as [|? ? Hnotin Hu']; subst.
  rewrite (IH _ Hu'). simpl. rewrite lookup_set_field.
  destruct (str_eqb k k0) eqn:E.
  - apply str_eqb_eq in E. subst k0. now rewrite (lookup_absent k fs Hnotin).
  - reflexivity.
Qed.

Lemma state_message_lookup (fs : list (jsstring * JsVal)) (k : jsstring) :
  unique_keys fs ->
  get (state_message (VObj fs)) k
  = match lookup k fs with
    | Some v => Ok v
    | None => if str_eqb k (lit "type") then Ok (VStr (lit "STATE"))
              else Ok VUndefined
    end.
Proof.
  intros Hu. unfold state_message, spread_into. cbn [own_properties get].
  rewrite (lookup_spread k _ Hu).
  destruct (lookup k fs); [reflexivity|].
  simpl. destruct (str_eqb k (lit "type")); reflexivity.
Qed.

(** X12: the broadcast message of an object state reads back every
    property the state has, unchanged, its own [type] included; when the
    state has no [type], [type] reads ["STATE"]; and every other name the
    state lacks reads [undefined], the names that every object inherits
    from [Object.prototype] apart. *)
Theorem state_message_reads_back (fs : list (jsstring * JsVal))
        (k : jsstring) :
  unique_keys fs ->
  (forall v, lookup k fs = Some v -> get (state_message (VObj fs)) k = Ok v)
  /\ (lookup k fs = None -> inherited_name k = false ->
      get (state_message (VObj fs)) k
      = if str_eqb k (lit "type") then Ok (VStr (lit "STATE"))
        else Ok VUndefined).
Proof.
  intros Hu. rewrite (state_message_lookup k Hu).
  split; [intros v -> | intros -> _]; reflexivity.
Qed.

(** X13: when the tab query calls back, every reported tab whose id is a
    number other than 0 is sent exactly one message, in the order reported,
    carrying the state cached at that moment; tabs without an id, or with
    id 0, are sent nothing; and the worker's variables, sockets and timers
    are as before. *)
Theorem broadcast_reaches_tabs_with_id (tabs : list Tab) (r : Relay) :
  out (tabs_callback tabs r)
  = out r
    ++ flat_map (fun t => match tab_id t with
                          | Some n =>
                              if (n =? 0)%Z then []
                              else [ESendMessage n (state_message (state r))]
                          | None => []
                          end) tabs
  /\ state (tabs_callback tabs r) = state r
  /\ reconnectTimeout (tabs_callback tabs r) = reconnectTimeout r
  /\ sockets (tabs_callback tabs r) = sockets r
  /\ timers (tabs_callback tabs r) = timers r.
Proof.
  destruct (tabs_callback_frame tabs r) as (_ & B & C & D & E & _).
  split; [exact (tabs_callback_sends tabs r)|].
  repeat split; assumption.
Qed.

Lemma scheduleReconnect_state (r : Relay) :
  state (scheduleReconnect r) = state r.
Proof. unfold scheduleReconnect. destruct (reconnectTimeout r); reflexivity. Qed.

Lemma connect_state (c : bool) (r : Relay) : state (connect c r) = state r.
Proof.
  unfold connect. destruct c.
  - destruct (reconnectTimeout r); reflexivity.
  - rewrite scheduleReconnect_state. destruct (reconnectTimeout r); reflexivity.
Qed.

(** X14: the cached state has no history: after any run of the event loop
    it is the value of the last frame that parsed since the last close, and
    the default if there was none; opening, errors, timers, reconnects, tab
    reports and queries never touch it. *)
Theorem state_is_last_frame (constructed : bool) (evs : list Relay.Event)
        (r : Relay) :
  Relay.run evs (init constructed) = Some r ->
  state r = cached_after evs default_state.
Proof.
  assert (Hgen : forall evs r0 r1, Relay.run evs r0 = Some r1 ->
                   state r1 = cached_after evs (state r0)).
  { clear. induction evs as [|ev evs IH]; intros r0 r1 Hrun; simpl in Hrun.
    - now injection Hrun as <-.
    - destruct (Relay.step ev r0) as [r'|] eqn:E; [|discriminate].
      rewrite (IH _ _ Hrun). unfold cached_after. simpl. f_equal.
      destruct ev as [s|s data|s|s|t c|tabs|message]; simpl in E.
      + destruct (live s r0); [|discriminate]. now injection E as <-.
      + destruct (live s r0); [|discriminate]. injection E as <-.
        unfold onmessage. destruct (Json.parse data); reflexivity.
      + destruct (live s r0); [|discriminate]. now injection E as <-.
      + destruct (live s r0); [|discriminate]. injection E as <-.
        unfold onclose. now rewrite scheduleReconnect_state.
      + destruct (pending t r0); [|discriminate]. injection E as <-.
        unfold reconnect_callback. now rewrite connect_state.
      + destruct (queries r0); [discriminate|]. injection E as <-.
        now destruct (tabs_callback_frame tabs (set_queries n r0)) as (_ & -> & _).
      + injection E as <-.
        now destruct (on_runtime_message_frame message r0) as (-> & _). }
  intros Hrun. rewrite (Hgen _ _ _ Hrun). unfold init.
  now rewrite connect_state.
Qed.

(** X15: the worker never gives up reconnecting: whenever no socket is
    alive, exactly one reconnect timer is pending and can fire; when it
    fires, either a new socket is opened, or, the constructor having
    thrown, the error is logged and a new timer is armed with the same
    delay. *)
Theorem reconnect_never_gives_up (constructed : bool)
        (evs : list Relay.Event) (r : Relay) :
  Relay.run evs (init constructed) = Some r ->
  sockets r = [] ->
  exists t,
    timers r = [t] /\ reconnectTimeout r = Some t
    /\ (exists r', Relay.step (EvTimeout t true) r = Some r'
                   /\ sockets r' = [next_socket r] /\ timers r' = []
                   /\ out r' = out r ++ [ENewSocket WS_URL (next_socket r)])
    /\ (exists r', Relay.step (EvTimeout t false) r = Some r'
                   /\ sockets r' = [] /\ timers r' = [next_timer r]
                   /\ reconnectTimeout r' = Some (next_timer r)
                   /\ out r' = out r ++ [EError "[Prodblock] WebSocket error:";
                                         ESetTimeout (next_timer r) 2000]).
Proof.
  intros Hrun Hs.
  assert (Hreach : reachable r) by (exists constructed, evs; exact Hrun).
  destruct (reachable_invariant Hreach) as [Ht Hl].
  unfold single_link in Hl. rewrite Hs in Hl. simpl in Hl.
  unfold timers_tracked in Ht.
  destruct (reconnectTimeout r) as [t|] eqn:E; [|rewrite Ht in Hl; discriminate].
  exists t. split; [exact Ht|]. split; [reflexivity|].
  split; eexists; (split; [unfold Relay.step, pending; rewrite Ht; simpl;
                           rewrite Pos.eqb_refl; reflexivity|]);
    unfold reconnect_callback, connect, scheduleReconnect; simpl;
    rewrite ?Ht, ?Hs; simpl; rewrite ?Pos.eqb_refl; simpl;
    rewrite <- ?app_assoc; repeat split.
Qed.

End RelayRuns.

(* ===================================================================== *)
(** * Properties of the content script's start-up protocol                *)
(* ===================================================================== *)

Section ScriptRuns.

Import ContentScript.

Variable toLowerCase : jsstring -> jsstring.
Variable location_hostname : jsstring.

Lemma exec_pending (c : M unit) (s : Script) :
  awaiting (exec c s) = awaiting s /\ retries (exec c s) = retries s.
Proof.
  unfold exec. destruct (c (enforcer s)) as [e [u|x]]; split; reflexivity.
Qed.

(** With nothing outstanding, no query can be answered and no timer fire. *)
Lemma settled_stays_settled (evs : list Event) :
  forall s s',
    awaiting s + retries s = 0 ->
    run toLowerCase location_hostname evs s = Some s' ->
    awaiting s' + retries s' = 0 /\ existsb answered evs = false.
Proof.
  induction evs as [|ev evs IH]; intros s s' H0 Hrun; simpl in Hrun.
  - injection Hrun as <-. split; [exact H0 | reflexivity].
  - destruct (step toLowerCase location_hostname ev s) as [s1|] eqn:E;
      [|discriminate].
    assert (H1 : awaiting s1 + retries s1 = 0 /\ answered ev = false).
    { destruct ev as [le resp| |msg|d nt]; simpl in E.
      - destruct (awaiting s) eqn:Ha; [discriminate | lia].
      - destruct (retries s) eqn:Hr; [discriminate | lia].
      - injection E as <-. destruct (exec_pending
          (on_message toLowerCase location_hostname msg) s) as [-> ->].
        split; [exact H0 | reflexivity].
      - injection E as <-. destruct (exec_pending (page_mutation d nt) s)
          as [-> ->].
        split; [exact H0 | reflexivity]. }
    destruct H1 as [H1 Hev].
    destruct (IH s1 s' H1 Hrun) as [A B].
    split; [exact A|]. simpl. now rewrite Hev, B.
Qed.

Lemma one_outstanding (evs : list Event) :
  forall s s',
    awaiting s + retries s = 1 ->
    run toLowerCase location_hostname evs s = Some s' ->
    awaiting s' + retries s' = if existsb answered evs then 0 else 1.
Proof.
  induction evs as [|ev evs IH]; intros s s' H1 Hrun; simpl in Hrun.
  - now injection Hrun as <-.
  - destruct (step toLowerCase location_hostname ev s) as [s1|] eqn:E;
      [|discriminate].
    simpl. destruct ev as [le resp| |msg|d nt]; simpl in E.
    + destruct (awaiting s) as [|n] eqn:Ha; [discriminate|].
      injection E as <-. unfold response_callback in Hrun. simpl answered.
      destruct (le || negb (truthy resp)) eqn:Hfail.
      * assert (Hno : negb le && truthy resp = false)
          by (destruct le, (truthy resp); simpl in *; congruence).
        rewrite Hno. simpl. eapply IH; [|exact Hrun]. simpl. lia.
      * assert (Hyes : negb le && truthy resp = true)
          by (destruct le, (truthy resp); simpl in *; congruence).
        rewrite Hyes. simpl.
        apply settled_stays_settled in Hrun; [tauto|].
        match goal with
        | |- awaiting (exec ?c ?x) + retries (exec ?c ?x) = 0 =>
            destruct (exec_pending c x) as [-> ->]
        end.
        simpl. lia.
    + destruct (retries s) as [|n] eqn:Hr; [discriminate|].
      injection E as <-. eapply IH; [|exact Hrun]. simpl. lia.
    + injection E as <-. eapply IH; [|exact Hrun].
      destruct (exec_pending (on_message toLowerCase location_hostname msg) s)
        as [-> ->].
      exact H1.
    + injection E as <-. eapply IH; [|exact Hrun].
      destruct (exec_pending (page_mutation d nt) s) as [-> ->]. exact H1.
Qed.

(** X16: the script keeps asking until it is answered, one request at a
    time: as long as no query has been answered with a truthy value and no
    error, exactly one query is in flight or one retry timer is pending;
    once one has been, none is, ever again. *)
Theorem one_query_or_retry_at_a_time (d : Document) (evs : list Event)
        (s : Script) :
  run toLowerCase location_hostname evs (launch d) = Some s ->
  awaiting s + retries s = if existsb answered evs then 0 else 1.
Proof.
  intros Hrun. eapply one_outstanding; [|exact Hrun]. reflexivity.
Qed.

(** X17: a frame that parses to a falsy value ([null], [false], [0], the
    empty string) becomes the cached state, a [GET_STATE] query is answered
    with it, and the content script takes that answer for none: it leaves
    the Enforcer as it is and sets a timer to ask again. *)
Theorem falsy_state_looks_unanswered (data : jsstring) (newState : JsVal)
        (message : JsVal) (r : Relay) (s : Script) :
  Json.parse data = Some newState ->
  truthy newState = false ->
  get message (lit "type") = Ok (VStr (lit "GET_STATE")) ->
  out (on_runtime_message message (onmessage data r))
  = out r ++ [ETabsQuery; ESendResponse newState]
  /\ response_callback toLowerCase location_hostname false newState s
     = mkScript (enforcer s) (awaiting s) (S (retries s))
                (actions s ++ [ASetTimeout 1000]).
Proof.
  intros Hparse Hfalsy Htype. split.
  - unfold on_runtime_message, onmessage. rewrite Htype, Hparse.
    change (str_eqb (lit "GET_STATE") (lit "GET_STATE")) with true.
    cbv iota. simpl. now rewrite <- app_assoc.
  - unfold response_callback. now rewrite Hfalsy.
Qed.

Lemma handleState_reads (m1 m2 : JsVal) (e : Enforcer) :
  get m1 (lit "lockActive") = get m2 (lit "lockActive") ->
  get m1 (lit "allowedDomains") = get m2 (lit "allowedDomains") ->
  handleState toLowerCase location_hostname m1 e
  = handleState toLowerCase location_hostname m2 e.
Proof.
  intros H1 H2. rewrite !handleState_by_verdict. unfold verdict.
  now rewrite H1, H2.
Qed.

(** X18: pushing and pulling agree: for an object state that has no [type]
    of its own (or has ["STATE"]), the listener does with the broadcast
    message exactly what the start-up callback does with the state itself
    when it gets it as the answer to its query. *)
Theorem push_agrees_with_pull (fs : list (jsstring * JsVal)) (s : Script) :
  unique_keys fs ->
  lookup (lit "type") fs = None
  \/ lookup (lit "type") fs = Some (VStr (lit "STATE")) ->
  exec (on_message toLowerCase location_hostname (state_message (VObj fs))) s
  = response_callback toLowerCase location_hostname false (VObj fs) s.
Proof.
  intros Hu Htype. unfold response_callback. cbn [truthy negb orb].
  unfold exec. f_equal.
  assert (Hget : get (state_message (VObj fs)) (lit "type")
                 = Ok (VStr (lit "STATE"))).
  { rewrite (state_message_lookup (lit "type") Hu).
    destruct Htype as [-> | ->]; reflexivity. }
  assert (Hrun : on_message toLowerCase location_hostname
                            (state_message (VObj fs)) (enforcer s)
                 = handleState toLowerCase location_hostname (VObj fs)
                               (enforcer s)).
  { unfold on_message, bind at 1, lift at 1. rewrite Hget.
    change (str_eqb (lit "STATE") (lit "STATE")) with true. cbv iota.
    apply handleState_reads;
      rewrite (state_message_lookup _ Hu); cbn [get];
      match goal with
      | |- context [lookup ?k fs] => destruct (lookup k fs); reflexivity
      end. }
  now rewrite Hrun.
Qed.

(** X19: a state without a truthy [lockActive] unblocks, object or not:
    whether it is [null], a boolean or a number, which go out as the bare
    message [{ type: "STATE" }], or an object whose [lockActive] is missing
    or falsy, every Enforcer that gets its broadcast targets Unblocked and
    removes the overlay it finds. *)
Theorem lockless_state_unblocks (st : JsVal) (e : Enforcer) :
  st = VNull \/ (exists b, st = VBool b) \/ (exists x, st = VNum x)
  \/ (exists fs, st = VObj fs /\ unique_keys fs
                 /\ (lookup (lit "type") fs = None
                     \/ lookup (lit "type") fs = Some (VStr (lit "STATE")))
                 /\ truthy (from_option (lookup (lit "lockActive") fs))
                    = false) ->
  on_message toLowerCase location_hostname (state_message st) e
  = removeOverlay (set_shouldBeBlocked false e).
Proof.
  intros [-> | [[b ->] | [[x ->] | (fs & -> & Hu & Htype & Hla)]]];
    try reflexivity.
  assert (Hget : get (state_message (VObj fs)) (lit "type")
                 = Ok (VStr (lit "STATE"))).
  { rewrite (state_message_lookup (lit "type") Hu).
    destruct Htype as [-> | ->]; reflexivity. }
  unfold on_message, bind at 1, lift at 1. rewrite Hget.
  change (str_eqb (lit "STATE") (lit "STATE")) with true. cbv iota.
  apply (@handleState_unlocked toLowerCase location_hostname _
           (from_option (lookup (lit "lockActive") fs))); [|exact Hla].
  rewrite (state_message_lookup _ Hu).
  destruct (lookup (lit "lockActive") fs); reflexivity.
Qed.

Lemma exec_ok (c : M unit) (s : Script) (e : Enforcer) :
  c (enforcer s) = (e, Ok tt) ->
  exec c s = mkScript e (awaiting s) (retries s) (actions s).
Proof. unfold exec. now intros ->. Qed.

(** X20: until an event hands it a state, the script is neither blocking
    nor watching: whatever queries fail and timers fire meanwhile,
    [shouldBeBlocked] is false, no observer is installed, the page is as
    its own changes left it, and all the script has done is ask. *)
Theorem waiting_script_leaves_page_alone (d : Document) (evs : list Event)
        (s : Script) :
  run toLowerCase location_hostname evs (launch d) = Some s ->
  existsb brings_state evs = false ->
  enforcer s = mkEnforcer false false (page_after evs d)
  /\ Forall (fun a => a = AQuery \/ a = ASetTimeout 1000) (actions s).
Proof.
  assert (Hgen : forall evs s0 s1 d0,
            enforcer s0 = mkEnforcer false false d0 ->
            Forall (fun a => a = AQuery \/ a = ASetTimeout 1000) (actions s0) ->
            run toLowerCase location_hostname evs s0 = Some s1 ->
            existsb brings_state evs = false ->
            enforcer s1 = mkEnforcer false false (page_after evs d0)
            /\ Forall (fun a => a = AQuery \/ a = ASetTimeout 1000)
                      (actions s1)).
  { clear. induction evs as [|ev evs IH]; intros s0 s1 d0 He Ha Hrun Hq;
      simpl in Hrun.
    - injection Hrun as <-. split; assumption.
    - simpl in Hq. apply orb_false_iff in Hq as [Hev Hq].
      destruct (step toLowerCase location_hostname ev s0) as [s'|] eqn:E;
        [|discriminate].
      destruct ev as [le resp| |msg|d' nt]; simpl in E, Hev; try discriminate.
      + destruct (awaiting s0); [discriminate|]. injection E as <-.
        unfold response_callback in Hrun.
        assert (Hfail : le || negb (truthy resp) = true)
          by (destruct le, (truthy resp); simpl in *; congruence).
        rewrite Hfail in Hrun. simpl.
        apply (IH _ _ d0) in Hrun; [exact Hrun | exact He | | exact Hq].
        simpl. apply Forall_app. split; [exact Ha | repeat constructor; tauto].
      + destruct (retries s0); [discriminate|]. injection E as <-.
        simpl. apply (IH _ _ d0) in Hrun; [exact Hrun | exact He | | exact Hq].
        simpl. apply Forall_app. split; [exact Ha | repeat constructor; tauto].
      + injection E as <-. simpl.
        assert (Hexec : exec (page_mutation d' nt) s0
                        = mkScript (mkEnforcer false false d') (awaiting s0)
                                   (retries s0) (actions s0)).
        { apply exec_ok. unfold page_mutation. rewrite He. reflexivity. }
        rewrite Hexec in Hrun.
        apply (IH _ _ d') in Hrun; [exact Hrun | reflexivity | exact Ha | exact Hq]. }
  intros Hrun Hq.
  apply (Hgen evs (launch d) s d); [reflexivity | | exact Hrun | exact Hq].
  repeat constructor.
Qed.

End ScriptRuns.

(* ===================================================================== *)
(** * Properties of the activity form                                     *)
(* ===================================================================== *)

Section FormLines.

Import Frontend.

Lemma trim_start_solid (c : N) (s : jsstring) :
  is_white_space c = false -> trim_start (c :: s) = c :: s.
Proof. intros H. simpl. now rewrite H. Qed.

Lemma trim_start_app_solid (l : jsstring) (c : N) (m : jsstring) :
  is_white_space c = false ->
  trim_start (l ++ c :: m) = trim_start l ++ c :: m.
Proof.
  intros Hc. induction l as [|x l IH]; simpl.
  - now rewrite Hc.
  - destruct (is_white_space x); [exact IH | reflexivity].
Qed.

Lemma trim_start_shape (s : jsstring) :
  trim_start s = []
  \/ exists c r, trim_start s = c :: r /\ is_white_space c = false.
Proof.
  induction s as [|x s IH]; simpl; [now left|].
  destruct (is_white_space x) eqn:E; [exact IH|].
  right. now exists x, s.
Qed.

Lemma trim_start_incl (s : jsstring) (x : N) :
  In x (trim_start s) -> In x s.
Proof.
  induction s as [|c s IH]; simpl; [tauto|].
  destruct (is_white_space c); [intros H; right; now apply IH | tauto].
Qed.

Lemma trim_incl (s : jsstring) (x : N) : In x (trim s) -> In x s.
Proof.
  unfold trim, trim_end. intros H. apply in_rev in H.
  apply trim_start_incl in H. apply in_rev in H.
  now apply trim_start_incl.
Qed.

(** The shape of a trimmed string: empty, or solid at both ends. *)
Lemma trim_shape (s : jsstring) :
  trim s = []
  \/ exists c m d, trim s = c :: m /\ rev (trim s) = d :: rev (removelast (trim s))
                   /\ is_white_space c = false /\ is_white_space d = false.
Proof.
  unfold trim, trim_end.
  destruct (trim_start_shape s) as [-> | (c & r & -> & Hc)]; [now left|].
  destruct (trim_start_shape (rev (c :: r))) as [Hnil | (d & q & Hq & Hd)].
  - exfalso. simpl in Hnil.
    rewrite (@trim_start_app_solid (rev r) c [] Hc) in Hnil.
    now destruct (trim_start (rev r)).
  - right. rewrite Hq.
    assert (Hlast : exists m, rev (d :: q) = c :: m).
    { simpl in Hq. rewrite (@trim_start_app_solid (rev r) c [] Hc) in Hq.
      rewrite <- Hq. rewrite rev_app_distr. simpl. eauto. }
    destruct Hlast as (m & Hm).
    exists c, m, d. split; [exact Hm|]. split; [|tauto].
    rewrite rev_involutive. f_equal.
    simpl. rewrite removelast_app by discriminate. simpl.
    now rewrite app_nil_r, rev_involutive.
Qed.

Lemma trim_fixed (s : jsstring) :
  (s = [] \/ exists c m d q, s = c :: m /\ rev s = d :: q
                             /\ is_white_space c = false
                             /\ is_white_space d = false) ->
  trim s = s.
Proof.
  intros [-> | (c & m & d & q & Hs & Hr & Hc & Hd)]; [reflexivity|].
  unfold trim, trim_end. rewrite Hs, (@trim_start_solid c m Hc), <- Hs, Hr.
  rewrite (@trim_start_solid d q Hd), <- Hr. apply rev_involutive.
Qed.

(** Trimming what is trimmed changes nothing. *)
Lemma trim_idempotent (s : jsstring) : trim (trim s) = trim s.
Proof.
  apply trim_fixed.
  destruct (trim_shape s) as [-> | (c & m & d & Hm & Hr & Hc & Hd)];
    [now left|].
  right. exists c, m, d, (rev (removelast (trim s))). tauto.
Qed.

Lemma split_lines_nonempty (s : jsstring) : split_lines s <> [].
Proof.
  induction s as [|c s IH]; simpl; [discriminate|].
  destruct (c =? 10)%N; [discriminate|].
  destruct (split_lines s); discriminate.
Qed.

Lemma split_lines_no_feed (s piece : jsstring) :
  In piece (split_lines s) -> ~ In 10%N piece.
Proof.
  revert piece. induction s as [|c s IH]; intros piece; simpl.
  - intros [<-|[]]. tauto.
  - destruct (N.eqb_spec c 10) as [->|Hc].
    + intros [<-|Hin]; [tauto | now apply IH].
    + destruct (split_lines s) as [|p ps] eqn:E.
      * intros [<-|[]]. simpl. tauto.
      * intros [<-|Hin].
        -- simpl. intros [H|H]; [congruence|].
           revert H. apply IH. now left.
        -- apply IH. now right.
Qed.

(** X21: whatever is typed into the text area of allowed domains, every
    entry saved from it is non-empty, has no white space at either end
    and no line feed inside. *)
Theorem saved_lines_are_clean (value entry : jsstring) :
  In entry (saved_lines value) -> clean entry.
Proof.
  unfold saved_lines, clean. intros Hin.
  apply filter_In in Hin as [Hin Hne].
  apply in_map_iff in Hin as (piece & <- & Hpiece).
  split; [|split].
  - intros E. unfold non_empty in Hne. now rewrite E in Hne.
  - apply trim_idempotent.
  - intros H. apply trim_incl in H. revert H.
    now apply (split_lines_no_feed value).
Qed.

Lemma split_lines_single (s : jsstring) :
  ~ In 10%N s -> split_lines s = [s].
Proof.
  induction s as [|c s IH]; simpl; [reflexivity|].
  intros Hn. destruct (N.eqb_spec c 10) as [->|Hc]; [tauto|].
  rewrite IH by tauto. reflexivity.
Qed.

Lemma split_lines_app (a s : jsstring) :
  ~ In 10%N a -> split_lines (a ++ 10%N :: s) = a :: split_lines s.
Proof.
  induction a as [|c a IH]; simpl; [reflexivity|].
  intros Hn. destruct (N.eqb_spec c 10) as [->|Hc]; [tauto|].
  rewrite IH by tauto. reflexivity.
Qed.

Lemma split_join (xs : list jsstring) :
  xs <> [] -> Forall clean xs -> split_lines (join_lines xs) = xs.
Proof.
  induction 2 as [|x xs (Hne & Htrim & Hfeed) Hxs IH]; [congruence|].
  destruct xs as [|y ys].
  - simpl. now apply split_lines_single.
  - change (join_lines (x :: y :: ys)) with (x ++ 10%N :: join_lines (y :: ys)).
    rewrite split_lines_app by exact Hfeed.
    f_equal. apply IH. discriminate.
Qed.

(** Clean entries joined and split again are the entries. *)
Lemma saved_joined (xs : list jsstring) :
  Forall clean xs -> saved_lines (join_lines xs) = xs.
Proof.
  intros Hclean. unfold saved_lines.
  destruct xs as [|x xs]; [reflexivity|].
  rewrite split_join by (discriminate || exact Hclean).
  induction Hclean as [|d ds (Hne & Htrim & _) _ IH]; [reflexivity|].
  simpl. rewrite Htrim. unfold non_empty at 1.
  destruct d as [|c d]; [congruence|]. simpl. f_equal. exact IH.
Qed.

(** A text without carriage returns is read from the text area as it was
    written to it. *)
Lemma textarea_value_plain (s : jsstring) :
  ~ In 13%N s -> textarea_value s = s.
Proof.
  induction s as [|c s IH]; [reflexivity|].
  intros Hn. cbn [textarea_value].
  destruct (N.eqb_spec c 13) as [->|Hc]; [exfalso; apply Hn; now left|].
  rewrite IH; [reflexivity|]. intros H. apply Hn. now right.
Qed.

Lemma join_lines_plain (xs : list jsstring) :
  Forall (fun s => ~ In 13%N s) xs -> ~ In 13%N (join_lines xs).
Proof.
  induction 1 as [|x xs Hx Hxs IH]; [simpl; tauto|].
  destruct xs as [|y ys]; [exact Hx|].
  change (join_lines (x :: y :: ys)) with (x ++ [10%N] ++ join_lines (y :: ys)).
  rewrite !in_app_iff. intros [H|[H|H]]; [tauto | | tauto].
  destruct H as [H|[]]. discriminate.
Qed.

(** X22: the form gives back what it was filled with: a list of entries
    that are clean and hold no carriage return, shown in the text area and
    saved again unedited, is saved as that same list; so opening and saving
    an activity any number of times keeps its allowed domains.  The text
    goes through the text area, which reads carriage returns as line
    feeds. *)
Theorem shown_then_saved (allowed_domains : list jsstring) :
  Forall one_line allowed_domains ->
  saved_lines (textarea_value (shown_lines allowed_domains)) = allowed_domains.
Proof.
  intros Hlines. unfold shown_lines.
  rewrite textarea_value_plain.
  - apply saved_joined. apply Forall_impl with (2 := Hlines).
    intros s [Hclean _]. exact Hclean.
  - apply join_lines_plain. apply Forall_impl with (2 := Hlines).
    intros s [_ Hplain]. exact Hplain.
Qed.

End FormLines.

(* ===================================================================== *)
(** * The further properties at concrete inputs                           *)
(* ===================================================================== *)

Section MoreInstances.

Import Reading Frontend MoreSamples.

Ltac evaluate := lazy; reflexivity.

Lemma isAllowed_membership_witness :
  exists b,
    isAllowed toLowerCase_ascii (lit "sub.example.com")
              (VArr [VNull; VStr (lit " Example.com ")]) = Ok b
    /\ (b = true <->
        exists d, In d [VNull; VStr (lit " Example.com ")]
                  /\ entry_covers toLowerCase_ascii
                       (toLowerCase_ascii (strip_www (lit "sub.example.com")))
                       d).
Proof.
  apply (isAllowed_membership toLowerCase_ascii (lit "sub.example.com")
           [VNull; VStr (lit " Example.com ")]).
  reflexivity.
Defined.

Lemma isAllowed_order_irrelevant_witness :
  isAllowed toLowerCase_ascii (lit "example.com")
            (VArr [VStr (lit "example.com"); VStr (lit "other.org");
                   VStr (lit "example.com")])
  = isAllowed toLowerCase_ascii (lit "example.com")
              (VArr [VStr (lit "other.org"); VStr (lit "example.com")]).
Proof.
  apply (proj2 (@isAllowed_order_irrelevant toLowerCase_ascii
                  (lit "example.com")
                  [VStr (lit "other.org"); VStr (lit "example.com")]
                  [VStr (lit "example.com"); VStr (lit "other.org");
                   VStr (lit "example.com")]
                  eq_refl eq_refl
                  ltac:(intros x [<-|[<-|[]]]; simpl; tauto))).
  intros x [<-|[<-|[<-|[]]]]; simpl; tauto.
Defined.

Lemma isAllowed_first_match_wins_witness :
  isAllowed toLowerCase_ascii (lit "example.com")
            (VArr [VStr (lit "example.com"); VNum (num_of_nat 5)]) = Ok true
  /\ isAllowed toLowerCase_ascii (lit "example.com")
               (VArr [VNum (num_of_nat 5); VStr (lit "example.com")])
     = Throw TypeError.
Proof.
  split.
  - apply (proj1 (@isAllowed_first_match_wins toLowerCase_ascii
                    (lit "example.com") [] [VNum (num_of_nat 5)]
                    (VStr (lit "example.com")) eq_refl)); [reflexivity|].
    split; [discriminate | now left].
  - apply (proj2 (@isAllowed_first_match_wins toLowerCase_ascii
                    (lit "example.com") [] [VStr (lit "example.com")]
                    (VNum (num_of_nat 5)) eq_refl)); [reflexivity|].
    intros p [].
Defined.

Lemma isAllowed_www_optional_witness :
  isAllowed toLowerCase_ascii (lit "www." ++ lit "example.com")
            (VArr [VStr (lit "example.com")])
  = isAllowed toLowerCase_ascii (lit "example.com")
              (VArr [VStr (lit "example.com")]).
Proof.
  apply isAllowed_www_optional. reflexivity.
Defined.

Lemma create_then_remove_restores_witness :
  bind createOverlay (fun _ => removeOverlay) (start Samples.page)
  = (start Samples.page, Ok tt).
Proof.
  apply create_then_remove_restores; [reflexivity | discriminate].
Defined.

Lemma handleState_is_memoryless_witness :
  shouldBeBlocked (mkEnforcer true true Samples.blocked_page)
  = shouldBeBlocked
      (mkEnforcer true true
                  (Some (Elem (lit "html") [] false [overlay_element]))).
Proof.
  apply (proj1 (handleState_is_memoryless toLowerCase_ascii
                  (lit "news.example.org") lock_message
                  (start Samples.page)
                  (mkEnforcer false true
                              (Some (Elem (lit "html") [] false [])))));
    evaluate.
Defined.

Lemma handleState_converges_witness :
  (getOverlay (mkEnforcer true true Samples.blocked_page) <> None
   <-> shouldBeBlocked (mkEnforcer true true Samples.blocked_page) = true)
  /\ count OVERLAY_ID (document (mkEnforcer true true Samples.blocked_page))
     <= 1.
Proof.
  apply (@handleState_converges toLowerCase_ascii (lit "news.example.org")
           lock_message (start Samples.page)).
  - evaluate.
  - vm_compute. lia.
Defined.

Lemma handleState_idempotent_witness :
  handleState toLowerCase_ascii (lit "news.example.org") lock_message
    (fst (handleState toLowerCase_ascii (lit "news.example.org") lock_message
            (start Samples.page)))
  = handleState toLowerCase_ascii (lit "news.example.org") lock_message
                (start Samples.page).
Proof.
  apply handleState_idempotent. vm_compute. lia.
Defined.

Lemma handleState_aborts_unchanged_witness :
  handleState toLowerCase_ascii (lit "news.example.org") bad_entry_message
              (start Samples.page)
  = (start Samples.page, Throw TypeError).
Proof.
  apply (proj1 (proj2 (handleState_aborts_unchanged toLowerCase_ascii
                         (lit "news.example.org") (start Samples.page)))
           bad_entry_message (VBool true) [] (VNum (num_of_nat 5)) []);
    try reflexivity.
  intros p [].
Defined.

Lemma handleState_exempts_covered_hosts_witness :
  shouldBeBlocked (mkEnforcer false true Samples.page) = false
  <-> exists d, In d [VStr (lit "example.com")]
                /\ entry_covers toLowerCase_ascii
                     (toLowerCase_ascii (strip_www (lit "sub.example.com"))) d.
Proof.
  apply (@handleState_exempts_covered_hosts toLowerCase_ascii
           (lit "sub.example.com") lock_message (VBool true)
           [VStr (lit "example.com")]
           (mkEnforcer true true Samples.blocked_page)
           (mkEnforcer false true Samples.page)); evaluate.
Defined.

Lemma lock_state_unique_keys :
  unique_keys [(lit "lockActive", VBool true);
               (lit "allowedDomains", VArr [VStr (lit "example.com")])].
Proof.
  unfold unique_keys. simpl. constructor.
  - intros [H|[]]. vm_compute in H. discriminate.
  - constructor; [intros [] | constructor].
Defined.

Lemma state_message_reads_back_witness :
  get (state_message Samples.lock_state) (lit "allowedDomains")
  = Ok (VArr [VStr (lit "example.com")])
  /\ get (state_message Samples.lock_state) (lit "type")
     = Ok (VStr (lit "STATE"))
  /\ get (state_message Samples.lock_state) (lit "endsAt") = Ok VUndefined.
Proof.
  split; [|split].
  - apply (proj1 (@state_message_reads_back
                    [(lit "lockActive", VBool true);
                     (lit "allowedDomains", VArr [VStr (lit "example.com")])]
                    (lit "allowedDomains") lock_state_unique_keys)).
    reflexivity.
  - apply (proj2 (@state_message_reads_back
                    [(lit "lockActive", VBool true);
                     (lit "allowedDomains", VArr [VStr (lit "example.com")])]
                    (lit "type") lock_state_unique_keys));
      reflexivity.
  - apply (proj2 (@state_message_reads_back
                    [(lit "lockActive", VBool true);
                     (lit "allowedDomains", VArr [VStr (lit "example.com")])]
                    (lit "endsAt") lock_state_unique_keys));
      reflexivity.
Defined.

(** Five tabs reported, three messages sent: the tab without an id and the
    tab with id 0 are passed over, and a tab reported twice is sent to
    twice. *)
Example broadcast_passes_over_tabs_without_id :
  out (tabs_callback [mkTab (Some 7%Z); mkTab None; mkTab (Some 0%Z);
                      mkTab (Some 3%Z); mkTab (Some 7%Z)]
                     Samples.after_close)
  = out Samples.after_close
    ++ [ESendMessage 7 (state_message default_state);
        ESendMessage 3 (state_message default_state);
        ESendMessage 7 (state_message default_state)].
Proof. evaluate. Qed.

Lemma state_is_last_frame_witness :
  state after_lock_then_close = cached_after lock_then_close default_state.
Proof.
  apply (@state_is_last_frame true lock_then_close after_lock_then_close).
  evaluate.
Defined.

Lemma reconnect_never_gives_up_witness :
  exists t,
    timers Samples.after_close = [t]
    /\ reconnectTimeout Samples.after_close = Some t
    /\ (exists r', Relay.step (EvTimeout t true) Samples.after_close = Some r'
                   /\ sockets r' = [next_socket Samples.after_close]
                   /\ timers r' = []
                   /\ out r' = out Samples.after_close
                               ++ [ENewSocket WS_URL
                                     (next_socket Samples.after_close)])
    /\ (exists r', Relay.step (EvTimeout t false) Samples.after_close = Some r'
                   /\ sockets r' = []
                   /\ timers r' = [next_timer Samples.after_close]
                   /\ reconnectTimeout r'
                      = Some (next_timer Samples.after_close)
                   /\ out r' = out Samples.after_close
                               ++ [EError "[Prodblock] WebSocket error:";
                                   ESetTimeout (next_timer Samples.after_close)
                                               2000]).
Proof.
  apply (@reconnect_never_gives_up true Samples.closed_once
           Samples.after_close); evaluate.
Defined.

Lemma one_query_or_retry_at_a_time_witness :
  ContentScript.awaiting (script_after retried_once)
  + ContentScript.retries (script_after retried_once)
  = if existsb ContentScript.answered retried_once then 0 else 1.
Proof.
  apply (@one_query_or_retry_at_a_time toLowerCase_ascii
           (lit "news.example.org") Samples.page retried_once
           (script_after retried_once)).
  evaluate.
Defined.

Lemma falsy_state_looks_unanswered_witness :
  out (on_runtime_message (VObj [(lit "type", VStr (lit "GET_STATE"))])
                          (onmessage (lit "null") (init true)))
  = out (init true) ++ [ETabsQuery; ESendResponse VNull]
  /\ ContentScript.response_callback toLowerCase_ascii
       (lit "news.example.org") false VNull
       (ContentScript.launch Samples.page)
     = ContentScript.mkScript
         (ContentScript.enforcer (ContentScript.launch Samples.page))
         (ContentScript.awaiting (ContentScript.launch Samples.page))
         (S (ContentScript.retries (ContentScript.launch Samples.page)))
         (ContentScript.actions (ContentScript.launch Samples.page)
          ++ [ContentScript.ASetTimeout 1000]).
Proof.
  apply (@falsy_state_looks_unanswered toLowerCase_ascii
           (lit "news.example.org") (lit "null") VNull
           (VObj [(lit "type", VStr (lit "GET_STATE"))]) (init true)
           (ContentScript.launch Samples.page)); evaluate.
Defined.

Lemma push_agrees_with_pull_witness :
  ContentScript.exec
    (on_message toLowerCase_ascii (lit "news.example.org")
                (state_message Samples.lock_state))
    (ContentScript.launch Samples.page)
  = ContentScript.response_callback toLowerCase_ascii
      (lit "news.example.org") false Samples.lock_state
      (ContentScript.launch Samples.page).
Proof.
  apply (@push_agrees_with_pull toLowerCase_ascii (lit "news.example.org")
           [(lit "lockActive", VBool true);
            (lit "allowedDomains", VArr [VStr (lit "example.com")])]
           (ContentScript.launch Samples.page) lock_state_unique_keys).
  left. reflexivity.
Defined.

Lemma lockless_state_unblocks_witness :
  on_message toLowerCase_ascii (lit "news.example.org")
             (state_message (VNum (num_of_nat 42)))
             (mkEnforcer true true Samples.blocked_page)
  = removeOverlay (set_shouldBeBlocked false
                     (mkEnforcer true true Samples.blocked_page)).
Proof.
  apply lockless_state_unblocks. right. right. left.
  now exists (num_of_nat 42).
Defined.

Lemma waiting_script_leaves_page_alone_witness :
  ContentScript.enforcer (script_after still_waiting)
  = mkEnforcer false false
               (ContentScript.page_after still_waiting Samples.page)
  /\ Forall (fun a => a = ContentScript.AQuery
                      \/ a = ContentScript.ASetTimeout 1000)
            (ContentScript.actions (script_after still_waiting)).
Proof.
  apply (@waiting_script_leaves_page_alone toLowerCase_ascii
           (lit "news.example.org") Samples.page still_waiting
           (script_after still_waiting)); evaluate.
Defined.

Lemma saved_lines_are_clean_witness :
  clean (lit "example.com").
Proof.
  apply (@saved_lines_are_clean (lit "  example.com " ++ [10%N; 10%N]
                                 ++ lit "docs.rs") (lit "example.com")).
  vm_compute. now left.
Defined.

Lemma one_line_example : one_line (lit "example.com").
Proof.
  split; [split; [discriminate|]; split; [reflexivity|]|];
    vm_compute; intuition discriminate.
Defined.

Lemma one_line_docs : one_line (lit "docs.rs").
Proof.
  split; [split; [discriminate|]; split; [reflexivity|]|];
    vm_compute; intuition discriminate.
Defined.

Lemma shown_then_saved_witness :
  saved_lines (textarea_value (shown_lines [lit "example.com"; lit "docs.rs"]))
  = [lit "example.com"; lit "docs.rs"].
Proof.
  apply shown_then_saved.
  constructor; [exact one_line_example|].
  constructor; [exact one_line_docs | constructor].
Defined.

(** The form drops blank lines and the white space around entries; the
    text area has already turned a carriage return with its line feed into
    one line feed. *)
Example saved_lines_of_messy_text :
  saved_lines (textarea_value
                 (lit "  example.com " ++ [13%N; 10%N; 10%N] ++ lit "docs.rs"
                  ++ [10%N]))
  = [lit "example.com"; lit "docs.rs"].
Proof. reflexivity. Qed.

(** An entry with a carriage return inside is clean, yet it does not come
    back as it was: the text area reads the carriage return as a line feed
    and the entry is saved as two. *)
Example carriage_return_splits_entry :
  clean [97%N; 13%N; 98%N]
  /\ saved_lines (textarea_value (shown_lines [[97%N; 13%N; 98%N]]))
     = [[97%N]; [98%N]].
Proof.
  split; [|reflexivity].
  split; [discriminate|]. split; [reflexivity|].
  vm_compute. intuition discriminate.
Qed.

End MoreInstances.
